(** * Coregistration engine of mne/coreg.py: a shallow embedding

    The development follows the numerical functions of
    [src/mne/coreg.py]:

    - [_decimate_points]            (voxel-grid decimation),
    - [_trans_from_params]          (parameter vector to 4x4 matrix),
    - [fit_matched_points]          (least-squares fit of matched points),
    - [get_ras_to_neuromag_trans]   (head frame from three landmarks),
    - [_point_cloud_error]          (distance to the closest target point),
    - [fit_point_cloud]             (least-squares fit to a point cloud).

    Floating-point numbers are idealised as exact numbers.  The decimator
    only adds, halves, multiplies and compares coordinates, so it is
    embedded over the rationals [Q] (every finite float is a rational),
    which keeps it executable.  The transform code needs [cos], [sin] and
    [sqrt] and is embedded over the reals [R].

    Python exceptions are values of [exn]; a function that may raise
    returns a [result]. *)

From Stdlib Require Import List Bool Arith ZArith QArith Qround Lia Lqa.
From Stdlib Require Import Reals Qreals Lra RNsatz.
From Stdlib Require String Finite.
Import String.StringSyntax.
Delimit Scope string_scope with string.
Import ListNotations.

Set Implicit Arguments.

(** ** Exceptions and the error monad *)

Inductive value_error : Type :=
| SameShape (src_shape tgt_shape : list nat)
    (* "src_pts and tgt_pts must have same shape (got ..., ...)" *)
| InvalidOut (out : String.string)
    (* "Invalid out parameter: ... Needs to be 'params' or 'trans'." *)
| PointsShape
    (* "Points have to be provided as one dimensional arrays of length 3." *)
| Unpack
    (* tuple unpacking of a sequence of the wrong length *)
| EmptySequence
    (* numpy: reduction or argmin over an empty array *)
| ShapesNotAligned.
    (* numpy: operands of dot, hstack or a broadcast do not fit *)

Inductive exn (A : Type) : Type :=
| ValueError (why : value_error)
| NotImplementedError (rotate translate : bool) (scale : Z)
    (* "The specified parameter combination is not implemented:
        rotate=%r, translate=%r, scale=%r" *)
| RuntimeError (err : list A)
    (* "Error exceeds tolerance. Error = %r" *)
| TypeError
    (* reduce() of empty sequence with no initial value *)
| IndexError
| SolverError.
    (* any exception leaving scipy.optimize.leastsq *)

Arguments ValueError {A} why.
Arguments NotImplementedError {A} rotate translate scale.
Arguments RuntimeError {A} err.
Arguments TypeError {A}.
Arguments IndexError {A}.
Arguments SolverError {A}.

Inductive result (E A : Type) : Type :=
| Ok (a : A)
| Raise (e : E).

Arguments Ok {E A} a.
Arguments Raise {E A} e.

Definition bind {E A B : Type} (m : result E A) (k : A -> result E B)
  : result E B :=
  match m with
  | Ok a => k a
  | Raise e => Raise e
  end.

Notation "x <- m ;; k" := (bind m (fun x => k))
  (at level 61, m at next level, right associativity).
Notation "' p <- m ;; k" := (bind m (fun x => match x with p => k end))
  (at level 61, p pattern, m at next level, right associativity).

Fixpoint mapM {E A B : Type} (f : A -> result E B) (l : list A)
  : result E (list B) :=
  match l with
  | [] => Ok []
  | a :: l' => b <- f a ;; bs <- mapM f l' ;; Ok (b :: bs)
  end.

(** ** Part I: voxel decimation ([_decimate_points]) *)

Module Decimate.

Open Scope Q_scope.

(** A row of a [(n, 3)] array. *)
Definition point : Type := (Q * Q * Q)%type.

Definition X (p : point) : Q := fst (fst p).
Definition Y (p : point) : Q := snd (fst p).
Definition Z (p : point) : Q := snd p.

Definition qmin (a b : Q) : Q := if Qle_bool a b then a else b.
Definition qmax (a b : Q) : Q := if Qle_bool a b then b else a.

(** [a.min()] and [a.max()] of a one-dimensional array; numpy raises
    ValueError on an empty one. *)
Definition amin (l : list Q) : result (exn Q) Q :=
  match l with
  | [] => Raise (ValueError EmptySequence)
  | a :: l' => Ok (fold_left qmin l' a)
  end.

Definition amax (l : list Q) : result (exn Q) Q :=
  match l with
  | [] => Raise (ValueError EmptySequence)
  | a :: l' => Ok (fold_left qmax l' a)
  end.

(** [np.arange(start, stop, step)] for a positive step:
    [ceil((stop - start) / step)] values [start + k * step]. *)
Definition arange (start stop step : Q) : list Q :=
  map (fun k => start + inject_Z (Z.of_nat k) * step)
      (seq 0 (Z.to_nat (Qceiling ((stop - start) / step)))).

(** [np.digitize(v, edges)] for increasing edges: the number of edges
    that are [<= v]. *)
Definition digitize (v : Q) (edges : list Q) : nat :=
  length (filter (fun e => Qle_bool e v) edges).

(** Bin of [v] along one axis of [np.histogramdd]: bins are half open, a
    value on the rightmost edge is moved into the last bin, and a value
    outside the edges is an outlier ([None]). *)
Definition bin_of (v : Q) (edges : list Q) : option nat :=
  let c := digitize v edges in
  let c := if Qeq_bool v (last edges 0) then (c - 1)%nat else c in
  if (c =? 0)%nat || (length edges <=? c)%nat then None else Some (c - 1)%nat.

Definition voxel : Type := (nat * nat * nat)%type.

Definition voxel_eqb (v w : voxel) : bool :=
  let '(i, j, k) := v in
  let '(i', j', k') := w in
  (i =? i')%nat && (j =? j')%nat && (k =? k')%nat.

Definition bins_of (xax yax zax : list Q) (p : point) : option voxel :=
  match bin_of (X p) xax, bin_of (Y p) yax, bin_of (Z p) zax with
  | Some i, Some j, Some k => Some (i, j, k)
  | _, _, _ => None
  end.

(** [H, _ = np.histogramdd(pts, bins=(xax, yax, zax))]: entry [(i,j,k)]
    of the count array, whose shape is one less than the number of
    edges along each axis. *)
Definition histogramdd (pts : list point) (xax yax zax : list Q)
  (v : voxel) : nat :=
  length (filter (fun p => match bins_of xax yax zax p with
                           | Some w => voxel_eqb v w
                           | None => false
                           end) pts).

(** The indices of an array of shape [(nx, ny, nz)] in row-major order. *)
Definition indices (nx ny nz : nat) : list voxel :=
  flat_map (fun i =>
    flat_map (fun j => map (fun k => (i, j, k)) (seq 0 nz)) (seq 0 ny))
    (seq 0 nx).

(** The index triples of [np.nonzero(H)], zipped. *)
Definition nonzero (nx ny nz : nat) (H : voxel -> nat) : list voxel :=
  filter (fun v => negb (H v =? 0)%nat) (indices nx ny nz).

(** [cdist(ipts, [mid])] gives the Euclidean distances to [mid]; only
    their order is used (by [np.argmin]), and that is the order of the
    squared distances, which stay rational (see [sqdist_order]). *)
Definition sqdist (p mid : point) : Q :=
  (X p - X mid) * (X p - X mid) + (Y p - Y mid) * (Y p - Y mid)
  + (Z p - Z mid) * (Z p - Z mid).

(** [np.argmin]: index of the first minimum; ValueError when empty. *)
Fixpoint argmin_from (best : nat) (bestv : Q) (i : nat) (l : list Q) : nat :=
  match l with
  | [] => best
  | d :: l' =>
      if Qle_bool bestv d then argmin_from best bestv (S i) l'
      else argmin_from i d (S i) l'
  end.

Definition argmin (l : list Q) : result (exn Q) nat :=
  match l with
  | [] => Raise (ValueError EmptySequence)
  | d :: l' => Ok (argmin_from 0%nat d 1%nat l')
  end.

(** The mask [idx] of one iteration of the loop. *)
Definition in_voxel (xax yax zax : list Q) (res : Q) (v : voxel) (p : point)
  : bool :=
  let '(xbin, ybin, zbin) := v in
  let x := nth xbin xax 0 in
  let y := nth ybin yax 0 in
  let z := nth zbin zax 0 in
  let xi := Qle_bool x (X p) && negb (Qle_bool (x + res) (X p)) in
  let yi := Qle_bool y (Y p) && negb (Qle_bool (y + res) (Y p)) in
  let zi := Qle_bool z (Z p) && negb (Qle_bool (z + res) (Z p)) in
  zi && (yi && xi).

(** The body of the loop: the point written to [out[i]]. *)
Definition select (xax yax zax : list Q) (res : Q) (pts : list point)
  (v : voxel) : result (exn Q) point :=
  let '(xbin, ybin, zbin) := v in
  let x := nth xbin xax 0 in
  let y := nth ybin yax 0 in
  let z := nth zbin zax 0 in
  let ipts := filter (in_voxel xax yax zax res v) pts in
  let mid := (x + res / 2, y + res / 2, z + res / 2) in
  let dist := map (fun p => sqdist p mid) ipts in
  i_min <- argmin dist ;;
  Ok (nth i_min ipts (0, 0, 0)).

(** Everything after the bin edges are known. *)
Definition decimate_on (xax yax zax : list Q) (res : Q) (pts : list point)
  : result (exn Q) (list point) :=
  let H := histogramdd pts xax yax zax in
  mapM (select xax yax zax res pts)
       (nonzero (length xax - 1) (length yax - 1) (length zax - 1) H).

(** [pts.min(0)] and [pts.max(0)]. *)
Definition bbox (pts : list point) : result (exn Q) (point * point) :=
  xlo <- amin (map X pts) ;;
  ylo <- amin (map Y pts) ;;
  zlo <- amin (map Z pts) ;;
  xhi <- amax (map X pts) ;;
  yhi <- amax (map Y pts) ;;
  zhi <- amax (map Z pts) ;;
  Ok ((xlo, ylo, zlo), (xhi, yhi, zhi)).

Definition _decimate_points (pts : list point) (res : Q)
  : result (exn Q) (list point) :=
  '(lo, hi) <- bbox pts ;;
  let xmin := X lo - res / 2 in
  let ymin := Y lo - res / 2 in
  let zmin := Z lo - res / 2 in
  let xmax := X hi + res in
  let ymax := Y hi + res in
  let zmax := Z hi + res in
  let xax := arange xmin xmax res in
  let yax := arange ymin ymax res in
  let zax := arange zmin zmax res in
  decimate_on xax yax zax res pts.

(** *** Notions used to state the properties of the grid *)

(** The [k]-th value of [np.arange(s, _, r)]. *)
Definition edge (s r : Q) (k : nat) : Q := s + inject_Z (Z.of_nat k) * r.

Definition edges (s r : Q) (L : nat) : list Q := map (edge s r) (seq 0 L).

(** [v] lies in the half-open cell that starts at the [i]-th edge. *)
Definition in_cell (s r : Q) (i : nat) (v : Q) : Prop :=
  edge s r i <= v /\ v < edge s r i + r.

(** The centre of a cell. *)
Definition mid (xax yax zax : list Q) (res : Q) (v : voxel) : point :=
  let '(i, j, k) := v in
  (nth i xax 0 + res / 2, nth j yax 0 + res / 2, nth k zax 0 + res / 2).

(** [v] indexes a cell of the count array made from [Lx], [Ly] and [Lz]
    edges. *)
Definition in_grid (Lx Ly Lz : nat) (v : voxel) : Prop :=
  let '(i, j, k) := v in
  (i < Lx - 1)%nat /\ (j < Ly - 1)%nat /\ (k < Lz - 1)%nat.


End Decimate.

(** ** Part II: transforms and matched-point fitting *)

Module Coreg.

Open Scope R_scope.

(** A two-dimensional array given by its rows. *)
Definition matrix : Type := list (list R).

(** A numpy array: its shape and its values in row-major order. *)
Record ndarray : Type := mk_ndarray { shape : list nat; data : list R }.

Definition ndim (a : ndarray) : nat := length (shape a).

(** [len(a)] of an array with at least one dimension. *)
Definition len (a : ndarray) : nat := hd 0%nat (shape a).

(** [n] rows of [k] values cut from a row-major buffer. *)
Definition rows (n k : nat) (d : list R) : list (list R) :=
  map (fun i => firstn k (skipn (i * k) d)) (seq 0 n).

(** The rows along the last axis of an array. *)
Definition last_axis_rows (a : ndarray) : list (list R) :=
  rows (fold_right Nat.mul 1%nat (removelast (shape a)))
       (last (shape a) 0%nat) (data a).

Definition dotp (u v : list R) : R :=
  fold_right Rplus 0 (map (fun ab => fst ab * snd ab) (combine u v)).

Definition ncols (m : matrix) : nat := length (hd [] m).

Definition column (j : nat) (m : matrix) : list R :=
  map (fun r => nth j r 0) m.

Definition transpose (m : matrix) : matrix :=
  map (fun j => column j m) (seq 0 (ncols m)).

(** [numpy.dot] of two two-dimensional arrays. *)
Definition dot (a b : matrix) : matrix :=
  map (fun r => map (dotp r) (transpose b)) a.

(** [reduce(f, l)] without initial value. *)
Definition reduce {A : Type} (f : A -> A -> A) (l : list A)
  : result (exn R) A :=
  match l with
  | [] => Raise TypeError
  | a :: l' => Ok (fold_left f l' a)
  end.

(** [x, y, z = l]. *)
Definition unpack3 (l : list R) : result (exn R) (R * R * R) :=
  match l with
  | [x; y; z] => Ok (x, y, z)
  | _ => Raise (ValueError Unpack)
  end.

(** [l[i]]. *)
Definition index (l : list R) (i : nat) : result (exn R) R :=
  match nth_error l i with
  | Some s => Ok s
  | None => Raise IndexError
  end.

(** [l[i:j]]. *)
Definition slice (l : list R) (i j : nat) : list R :=
  firstn (j - i) (skipn i l).

(** Modelled from the spec: [mne/transforms.py], from which coreg.py
    imports [translation], [scaling], [rotation] and [rotation3d], is not
    among the sources.  The spec speaks of 4x4 homogeneous transform
    matrices with bottom row [0,0,0,1] of a translation, of a scaling and
    of a rotation by three angles; [translation] and [scaling] are the
    homogeneous matrices of a translation by (x,y,z) and of a scaling by
    (x,y,z). *)
Definition translation (x y z : R) : matrix :=
  [[1; 0; 0; x];
   [0; 1; 0; y];
   [0; 0; 1; z];
   [0; 0; 0; 1]].

(** Modelled from the spec: [scaling] of [mne/transforms.py], the
    homogeneous matrix of the scaling by (x,y,z). *)
Definition scaling (x y z : R) : matrix :=
  [[x; 0; 0; 0];
   [0; y; 0; 0];
   [0; 0; z; 0];
   [0; 0; 0; 1]].

(** Modelled from the spec: [rotation3d] of [mne/transforms.py] is not
    among the sources and the spec only says that it rotates by three
    angles.  The development takes its entries as a parameter ([rot]
    below); closed examples instantiate it with the rotation by the
    angles x, y, z about the three axes. *)
Definition euler (x y z : R) (i j : nat) : R :=
  match i, j with
  | 0%nat, 0%nat => cos y * cos z
  | 0%nat, 1%nat => - cos x * sin z + sin x * sin y * cos z
  | 0%nat, 2%nat => sin x * sin z + cos x * sin y * cos z
  | 1%nat, 0%nat => cos y * sin z
  | 1%nat, 1%nat => cos x * cos z + sin x * sin y * sin z
  | 1%nat, 2%nat => - sin x * cos z + cos x * sin y * sin z
  | 2%nat, 0%nat => - sin y
  | 2%nat, 1%nat => sin x * cos y
  | 2%nat, 2%nat => cos x * cos y
  | _, _ => 0
  end.

Inductive fit_output : Type :=
| Params (x : list R)
| Trans (trans : matrix).

(** [np.atleast_2d]. *)
Definition atleast_2d (a : ndarray) : ndarray :=
  match shape a with
  | [] => mk_ndarray [1%nat; 1%nat] (data a)
  | [n] => mk_ndarray [1%nat; n] (data a)
  | _ => a
  end.

(** [np.hstack((a, np.ones((len(a), 1))))]: defined for a two-dimensional
    [a]; numpy refuses arrays with different numbers of dimensions. *)
Definition hstack_ones (a : ndarray) : result (exn R) ndarray :=
  match shape a with
  | [n; k] =>
      Ok (mk_ndarray [n; S k]
            (concat (map (fun r => r ++ [1]) (rows n k (data a)))))
  | _ => Raise (ValueError ShapesNotAligned)
  end.

(** [dot(a, trans.T)]: every row along the last axis of [a] is multiplied
    with every row of [trans]; the last axis of [a] has to be as long as
    the rows of [trans]. *)
Definition dot_T (a : ndarray) (trans : matrix) : result (exn R) ndarray :=
  if (last (shape a) 0 =? ncols trans)%nat
  then Ok (mk_ndarray (removelast (shape a) ++ [length trans])
             (concat (map (fun p => map (dotp p) trans) (last_axis_rows a))))
  else Raise (ValueError ShapesNotAligned).

(** [a[:, :3]] of a two-dimensional array; only such arrays reach it,
    since they went through [hstack_ones]. *)
Definition cols3 (a : ndarray) : ndarray :=
  match shape a with
  | [n; k] =>
      mk_ndarray [n; Nat.min 3 k]
        (concat (map (firstn 3) (rows n k (data a))))
  | _ => a
  end.

Definition shape_eqb (s t : list nat) : bool :=
  if list_eq_dec Nat.eq_dec s t then true else false.

(** [a - b] for arrays of one shape.  No other case is reached: whenever
    the [dot_T] before it succeeds, both operands have the shape of
    [tgt_pts]. *)
Definition sub (a b : ndarray) : result (exn R) ndarray :=
  if shape_eqb (shape a) (shape b)
  then Ok (mk_ndarray (shape a)
             (map (fun ab => fst ab - snd ab) (combine (data a) (data b))))
  else Raise (ValueError ShapesNotAligned).

(** [m * s] for a scalar [s]. *)
Definition mscale (m : matrix) (s : R) : matrix :=
  map (map (fun a => a * s)) m.

(** [np.sqrt(np.sum(d ** 2, axis=1))] of a two-dimensional array. *)
Definition row_norms (d : ndarray) : list R :=
  map (fun r => sqrt (fold_right Rplus 0 (map (fun a => a ^ 2) r)))
      (last_axis_rows d).

(** [np.any(err > tol)]. *)
Definition any_gt (err : list R) (tol : R) : bool :=
  existsb (fun e => if Rlt_dec tol e then true else false) err.

Definition str_params : String.string := "params"%string.
Definition str_trans : String.string := "trans"%string.

(** [if x0 is None: x0 = ...]: the solver starts from [x0] if one is
    given and from the default of the branch otherwise. *)
Definition initial_guess (x0 : option (list R)) (x0_default : list R)
  : list R :=
  match x0 with None => x0_default | Some x0 => x0 end.

Section Engine.

(** Modelled from the spec: the entries of [rotation3d(x, y, z)] are not
    in the sources (see [translation]); they are a parameter [rot].
    [rotation3d] is the 3x3 rotation matrix and [rotation] the same
    rotation as a homogeneous 4x4 matrix. *)
Variable rot : R -> R -> R -> nat -> nat -> R.

Definition entry (x y z : R) (i j : nat) : R := rot x y z i j.

Definition rotation3d (x y z : R) : matrix :=
  [[entry x y z 0 0; entry x y z 0 1; entry x y z 0 2];
   [entry x y z 1 0; entry x y z 1 1; entry x y z 1 2];
   [entry x y z 2 0; entry x y z 2 1; entry x y z 2 2]].

Definition rotation (x y z : R) : matrix :=
  [[entry x y z 0 0; entry x y z 0 1; entry x y z 0 2; 0];
   [entry x y z 1 0; entry x y z 1 1; entry x y z 1 2; 0];
   [entry x y z 2 0; entry x y z 2 1; entry x y z 2 2; 0];
   [0; 0; 0; 1]].

Definition _trans_from_params (param_info : bool * bool * Z)
  (params : list R) : result (exn R) matrix :=
  let '(do_rotate, do_translate, do_scale) := param_info in
  let i := 0%nat in
  let trans := [] in
  '(trans, i) <-
    (if do_rotate
     then '(x, y, z) <- unpack3 (slice params 0 3) ;;
          Ok (trans ++ [rotation x y z], (i + 3)%nat)
     else Ok (trans, i)) ;;
  '(trans, i) <-
    (if do_translate
     then '(x, y, z) <- unpack3 (slice params i (i + 3)) ;;
          Ok (translation x y z :: trans, (i + 3)%nat)
     else Ok (trans, i)) ;;
  trans <-
    (if (do_scale =? 1)%Z
     then s <- index params i ;;
          Ok (trans ++ [scaling s s s])
     else if (do_scale =? 3)%Z
     then '(x, y, z) <- unpack3 (slice params i (i + 3)) ;;
          Ok (trans ++ [scaling x y z])
     else Ok trans) ;;
  reduce dot trans.

(** The residual function [error] and the default [x0] of each branch of
    [fit_matched_points]; [None] is the final [else]. *)
Definition error_of (param_info : bool * bool * Z)
  (src_pts tgt_pts : ndarray)
  : option ((list R -> result (exn R) (list R)) * list R) :=
  match param_info with
  | (true, false, 0%Z) =>
      Some (fun x =>
              match x with
              | [rx; ry; rz] =>
                  let trans := rotation3d rx ry rz in
                  est <- dot_T src_pts trans ;;
                  d <- sub tgt_pts est ;;
                  Ok (data d)
              | _ => Raise (ValueError Unpack)
              end,
            [0; 0; 0])
  | (true, false, 1%Z) =>
      Some (fun x =>
              match x with
              | [rx; ry; rz; s] =>
                  let trans := mscale (rotation3d rx ry rz) s in
                  est <- dot_T src_pts trans ;;
                  d <- sub tgt_pts est ;;
                  Ok (data d)
              | _ => Raise (ValueError Unpack)
              end,
            [0; 0; 0; 1])
  | (true, true, 0%Z) =>
      Some (fun x =>
              match x with
              | [rx; ry; rz; tx; ty; tz] =>
                  let trans := dot (translation tx ty tz)
                                   (rotation rx ry rz) in
                  est <- dot_T src_pts trans ;;
                  d <- sub tgt_pts (cols3 est) ;;
                  Ok (data d)
              | _ => Raise (ValueError Unpack)
              end,
            [0; 0; 0; 0; 0; 0])
  | (true, true, 1%Z) =>
      Some (fun x =>
              match x with
              | [rx; ry; rz; tx; ty; tz; s] =>
                  trans <- reduce dot [translation tx ty tz;
                                       rotation rx ry rz;
                                       scaling s s s] ;;
                  est <- dot_T src_pts trans ;;
                  d <- sub tgt_pts (cols3 est) ;;
                  Ok (data d)
              | _ => Raise (ValueError Unpack)
              end,
            [0; 0; 0; 0; 0; 0; 1])
  | _ => None
  end.

(** [scipy.optimize.leastsq] is an external solver: a parameter that is
    given the residual function and the initial guess and returns the
    estimate or raises. *)
Variable leastsq :
  (list R -> result (exn R) (list R)) -> list R -> result (exn R) (list R).

Definition fit_matched_points (src_pts tgt_pts : ndarray)
  (rotate translate : bool) (scale : Z) (tol : option R)
  (x0 : option (list R)) (out : String.string)
  : result (exn R) fit_output :=
  let src_pts := atleast_2d src_pts in
  let tgt_pts := atleast_2d tgt_pts in
  if negb (shape_eqb (shape src_pts) (shape tgt_pts))
  then Raise (ValueError (SameShape (shape src_pts) (shape tgt_pts)))
  else
  src_pts <- (if translate then hstack_ones src_pts else Ok src_pts) ;;
  let param_info := (rotate, translate, scale) in
  match error_of param_info src_pts tgt_pts with
  | None => Raise (NotImplementedError rotate translate scale)
  | Some (error, x0_default) =>
      let x0 := initial_guess x0 x0_default in
      x <- leastsq error x0 ;;
      (* re-create the final transformation matrix *)
      trans <-
        (if match tol with Some _ => true | None => false end
            || String.eqb out str_trans
         then m <- _trans_from_params param_info x ;; Ok (Some m)
         else Ok None) ;;
      (* assess the error of the solution *)
      _ <-
        match tol, trans with
        | Some tol, Some trans =>
            src_pts <- (if negb translate then hstack_ones src_pts
                        else Ok src_pts) ;;
            est <- dot_T src_pts trans ;;
            d <- sub (cols3 est) tgt_pts ;;
            let err := row_norms d in
            if any_gt err tol then Raise (RuntimeError err) else Ok tt
        | _, _ => Ok tt
        end ;;
      if String.eqb out str_params then Ok (Params x)
      else if String.eqb out str_trans
      then match trans with
           | Some trans => Ok (Trans trans)
           | None => Raise TypeError (* not reached: [trans] was made above *)
           end
      else Raise (ValueError (InvalidOut out))
  end.

End Engine.

(** Elementwise operations on one-dimensional arrays. *)
Definition vsub (u v : list R) : list R :=
  map (fun ab => fst ab - snd ab) (combine u v).

Definition vadd (u v : list R) : list R :=
  map (fun ab => fst ab + snd ab) (combine u v).

Definition vmul (s : R) (v : list R) : list R := map (fun a => s * a) v.

Definition vdiv (v : list R) (s : R) : list R := map (fun a => a / s) v.

Definition vneg (v : list R) : list R := map Ropp v.

(** [scipy.linalg.norm] of a vector. *)
Definition norm (v : list R) : R :=
  sqrt (fold_right Rplus 0 (map (fun a => a ^ 2) v)).

(** [np.cross] of two vectors of length 3. *)
Definition cross (u v : list R) : list R :=
  match u, v with
  | [u0; u1; u2], [v0; v1; v2] =>
      [u1 * v2 - u2 * v1; u2 * v0 - u0 * v2; u0 * v1 - u1 * v0]
  | _, _ => []
  end.

(** The check made on each of the three landmarks. *)
Definition bad_point (pt : ndarray) : bool :=
  negb (ndim pt =? 1)%nat || negb (len pt =? 3)%nat.

Definition get_ras_to_neuromag_trans (nasion lpa rpa : ndarray)
  : result (exn R) matrix :=
  if existsb bad_point [nasion; lpa; rpa]
  then Raise (ValueError PointsShape)
  else
  let nasion := data nasion in
  let lpa := data lpa in
  let rpa := data rpa in
  let right := vsub rpa lpa in
  let right_unit := vdiv right (norm right) in
  let origin := vadd lpa (vmul (dotp (vsub nasion lpa) right_unit) right_unit) in
  let anterior := vsub nasion origin in
  let anterior_unit := vdiv anterior (norm anterior) in
  let superior_unit := cross right_unit anterior_unit in
  '(x, y, z) <- unpack3 (vneg origin) ;;
  let origin_trans := translation x y z in
  let trans_l := [right_unit; anterior_unit; superior_unit; [0; 0; 0]] in
  let trans_r := [[0]; [0]; [0]; [1]] in
  let rot_trans := map (fun lr => fst lr ++ snd lr) (combine trans_l trans_r) in
  let trans := dot rot_trans origin_trans in
  Ok trans.

(** *** Notions used to state the properties of the transforms *)

Definition identity4 : matrix :=
  [[1; 0; 0; 0];
   [0; 1; 0; 0];
   [0; 0; 1; 0];
   [0; 0; 0; 1]].

(** [trans] applied to the homogeneous point [p]. *)
Definition apply (trans : matrix) (p : list R) : list R :=
  map (dotp p) trans.

(** The number of parameters a descriptor consumes. *)
Definition n_params (param_info : bool * bool * Z) : nat :=
  let '(do_rotate, do_translate, do_scale) := param_info in
  ((if do_rotate then 3 else 0) + (if do_translate then 3 else 0)
   + (if (do_scale =? 1)%Z then 1 else if (do_scale =? 3)%Z then 3 else 0))%nat.

(** The descriptor enables at least one component. *)
Definition has_component (param_info : bool * bool * Z) : bool :=
  let '(do_rotate, do_translate, do_scale) := param_info in
  do_rotate || do_translate || (do_scale =? 1)%Z || (do_scale =? 3)%Z.

(** The three component matrices as the spec describes them: the leading
    three parameters are the rotation angles if [do_rotate], the next three
    the translation if [do_translate], the remaining one or three the
    scale; a disabled component is the identity. *)
Definition rotate_matrix (rot : R -> R -> R -> nat -> nat -> R)
  (param_info : bool * bool * Z) (params : list R) : matrix :=
  let '(do_rotate, _, _) := param_info in
  if do_rotate
  then rotation rot (nth 0 params 0) (nth 1 params 0) (nth 2 params 0)
  else identity4.

Definition translate_matrix (param_info : bool * bool * Z)
  (params : list R) : matrix :=
  let '(do_rotate, do_translate, _) := param_info in
  let i := if do_rotate then 3%nat else 0%nat in
  if do_translate
  then translation (nth i params 0) (nth (i + 1) params 0)
         (nth (i + 2) params 0)
  else identity4.

Definition scale_matrix (param_info : bool * bool * Z)
  (params : list R) : matrix :=
  let '(do_rotate, do_translate, do_scale) := param_info in
  let i := ((if do_rotate then 3 else 0)
            + (if do_translate then 3 else 0))%nat in
  if (do_scale =? 1)%Z
  then scaling (nth i params 0) (nth i params 0) (nth i params 0)
  else if (do_scale =? 3)%Z
  then scaling (nth i params 0) (nth (i + 1) params 0) (nth (i + 2) params 0)
  else identity4.

(** The four combinations the spec lists for the matched-point fitter. *)
Definition supported (rotate translate : bool) (scale : Z) : bool :=
  match rotate, translate, scale with
  | true, false, 0%Z => true
  | true, false, 1%Z => true
  | true, true, 0%Z => true
  | true, true, 1%Z => true
  | _, _, _ => false
  end.

(** The per-point residual norms of a transform: the distance between
    the image of each source point and its target point. *)
Definition fit_residuals (trans : matrix) (src_pts tgt_pts : ndarray)
  : result (exn R) (list R) :=
  src_pts <- hstack_ones src_pts ;;
  est <- dot_T src_pts trans ;;
  d <- sub (cols3 est) tgt_pts ;;
  Ok (row_norms d).

(** One-dimensional arrays of length 3 and two one-point sets, used in
    closed examples. *)
Definition vec3 (x y z : R) : ndarray := mk_ndarray [3%nat] [x; y; z].

Definition src1 : ndarray := mk_ndarray [1%nat; 3%nat] [1; 0; 0].

Definition tgt1 : ndarray := mk_ndarray [1%nat; 3%nat] [3; 0; 0].

(** A solver that stops at its initial guess; used to build closed
    examples. *)
Definition leastsq_at_x0 (error : list R -> result (exn R) (list R))
  (x0 : list R) : result (exn R) (list R) :=
  _ <- error x0 ;; Ok x0.

(** *** Notions used to state the properties of the fit and of the head
    frame *)

(** The Euclidean distance of two points. *)
Definition distance (p q : list R) : R :=
  sqrt (fold_right Rplus 0
          (map (fun ab => (fst ab - snd ab) ^ 2) (combine p q))).

(** For each source point, the distance between its image under [trans]
    and the target point of the same index. *)
Definition point_distances (trans : matrix) (src_pts tgt_pts : ndarray)
  : list R :=
  map (fun pq => distance (firstn 3 (apply trans (fst pq ++ [1]))) (snd pq))
      (combine (rows (len src_pts) 3 (data src_pts))
               (rows (len tgt_pts) 3 (data tgt_pts))).

(** A solver that makes the input check of [scipy.optimize.leastsq] (it
    evaluates the residual function at the initial guess and raises
    TypeError, "Improper input: N=... must not exceed M=...", when there
    are fewer residuals than parameters) and stops at its initial guess;
    used to build closed examples. *)
Definition leastsq_checked (error : list R -> result (exn R) (list R))
  (x0 : list R) : result (exn R) (list R) :=
  res <- error x0 ;;
  if (length res <? length x0)%nat then Raise TypeError else Ok x0.

(** The rotation block of a homogeneous matrix. *)
Definition rot_part (trans : matrix) : matrix :=
  map (firstn 3) (firstn 3 trans).

(** The rows of a 3x3 matrix are unit vectors orthogonal to each other. *)
Definition orthonormal (B : matrix) : Prop :=
  forall i j, (i < 3)%nat -> (j < 3)%nat ->
    dotp (nth i B []) (nth j B []) = if (i =? j)%nat then 1 else 0.

(** Three points lie on one line (or two of them coincide). *)
Definition collinear (a b c : list R) : Prop :=
  cross (vsub a b) (vsub c b) = [0; 0; 0].

End Coreg.

(** ** Part III: closest-point fitting ([fit_point_cloud]) *)

Module PointCloud.

Import Coreg.
Open Scope R_scope.

(** The Euclidean distance of two rows. *)
Definition euclidean (p q : list R) : R :=
  sqrt (fold_right Rplus 0
          (map (fun ab => (fst ab - snd ab) ^ 2) (combine p q))).

(** [cdist(XA, XB, 'euclidean')]: both arrays have to be two-dimensional
    with the same number of columns. *)
Definition cdist (XA XB : ndarray) : result (exn R) ndarray :=
  match shape XA, shape XB with
  | [n; k], [m; k'] =>
      if (k =? k')%nat
      then Ok (mk_ndarray [n; m]
                 (concat (map (fun p =>
                                 map (euclidean p) (rows m k' (data XB)))
                              (rows n k (data XA)))))
      else Raise (ValueError ShapesNotAligned)
  | _, _ => Raise (ValueError ShapesNotAligned)
  end.

(** The minimum of a non-empty row. *)
Definition rmin (row : list R) : R :=
  match row with
  | [] => 0
  | d :: row' => fold_left Rmin row' d
  end.

(** [Y.min(axis=1)] of a two-dimensional array; numpy raises ValueError
    when the reduced axis has length 0. *)
Definition min_axis1 (Y : ndarray) : result (exn R) (list R) :=
  match shape Y with
  | [n; m] =>
      if (m =? 0)%nat then Raise (ValueError EmptySequence)
      else Ok (map rmin (rows n m (data Y)))
  | _ => Raise IndexError
  end.

Definition _point_cloud_error (src_pts tgt_pts : ndarray)
  : result (exn R) (list R) :=
  Y <- cdist src_pts tgt_pts ;;
  let dist := min_axis1 Y in
  dist.

(** [m * [sx, sy, sz]]: numpy broadcasts the vector along the rows. *)
Definition mscale_cols (m : matrix) (s : list R) : matrix :=
  map (fun row => map (fun ab => fst ab * snd ab) (combine row s)) m.

(** [x0 or default]: [None] and the empty tuple are false. *)
Definition x0_or (x0 : option (list R)) (default : list R) : list R :=
  match x0 with
  | None => default
  | Some [] => default
  | Some x0 => x0
  end.

(** [kwargs.update(leastsq_args)] on a dictionary given by its items: an
    item of [leastsq_args] replaces the item of [kwargs] with its key or is
    added to it. *)
Fixpoint dict_set {V : Type} (d : list (String.string * V))
  (key : String.string) (v : V) : list (String.string * V) :=
  match d with
  | [] => [(key, v)]
  | (key', v') :: d' =>
      if String.eqb key' key then (key', v) :: d'
      else (key', v') :: dict_set d' key v
  end.

Definition dict_update {V : Type} (d new : list (String.string * V))
  : list (String.string * V) :=
  fold_left (fun d kv => dict_set d (fst kv) (snd kv)) new d.

Fixpoint dict_get {V : Type} (d : list (String.string * V))
  (key : String.string) : option V :=
  match d with
  | [] => None
  | (key', v') :: d' => if String.eqb key' key then Some v' else dict_get d' key
  end.

Section Engine.

Variable rot : R -> R -> R -> nat -> nat -> R.

(** The values of the keyword arguments of the solver; [of_float] makes
    one of a float. *)
Variable value : Type.
Variable of_float : R -> value.

(** [scipy.optimize.leastsq] with keyword arguments. *)
Variable leastsq :
  list (String.string * value) ->
  (list R -> result (exn R) (list R)) -> list R -> result (exn R) (list R).

(** [sklearn.neighbors.BallTree] if the import succeeds ([None] is the
    ImportError): the tree of the target points answers, for an array of
    points, with the distance of each to its nearest target point. *)
Variable BallTree :
  option (ndarray -> result (exn R) (ndarray -> result (exn R) (list R))).

(** The residual function [error] and the default [x0] of each branch of
    [fit_point_cloud]; [errfunc] already holds the target. *)
Definition error_of (param_info : bool * bool * Z) (src_pts : ndarray)
  (errfunc : ndarray -> result (exn R) (list R))
  : option ((list R -> result (exn R) (list R)) * list R) :=
  match param_info with
  | (true, false, 0%Z) =>
      Some (fun x =>
              match x with
              | [rx; ry; rz] =>
                  let trans := rotation3d rot rx ry rz in
                  est <- dot_T src_pts trans ;;
                  errfunc est
              | _ => Raise (ValueError Unpack)
              end,
            [0; 0; 0])
  | (true, false, 1%Z) =>
      Some (fun x =>
              match x with
              | [rx; ry; rz; s] =>
                  let trans := mscale (rotation3d rot rx ry rz) s in
                  est <- dot_T src_pts trans ;;
                  errfunc est
              | _ => Raise (ValueError Unpack)
              end,
            [0; 0; 0; 1])
  | (true, false, 3%Z) =>
      Some (fun x =>
              match x with
              | [rx; ry; rz; sx; sy; sz] =>
                  let trans :=
                    mscale_cols (rotation3d rot rx ry rz) [sx; sy; sz] in
                  est <- dot_T src_pts trans ;;
                  errfunc est
              | _ => Raise (ValueError Unpack)
              end,
            [0; 0; 0; 1; 1; 1])
  | (true, true, 0%Z) =>
      Some (fun x =>
              match x with
              | [rx; ry; rz; tx; ty; tz] =>
                  let trans := dot (translation tx ty tz)
                                   (rotation rot rx ry rz) in
                  est <- dot_T src_pts trans ;;
                  errfunc (cols3 est)
              | _ => Raise (ValueError Unpack)
              end,
            [0; 0; 0; 0; 0; 0])
  | _ => None
  end.

Definition fit_point_cloud (src_pts tgt_pts : ndarray)
  (rotate translate : bool) (scale : Z) (x0 : option (list R))
  (leastsq_args : list (String.string * value)) (out : String.string)
  : result (exn R) fit_output :=
  let kwargs := [("epsfcn"%string, of_float (1 / 100))] in
  let kwargs := dict_update kwargs leastsq_args in
  (* assert correct argument types *)
  let src_pts := atleast_2d src_pts in
  let tgt_pts := atleast_2d tgt_pts in
  src_pts <- (if translate then hstack_ones src_pts else Ok src_pts) ;;
  errfunc <-
    match BallTree with
    | Some tree =>
        tgt_tree <- tree tgt_pts ;;
        Ok (fun est => tgt_tree est)
    | None => Ok (fun est => _point_cloud_error est tgt_pts)
    end ;;
  (* for efficiency, define parameter specific error function *)
  let param_info := (rotate, translate, scale) in
  match error_of param_info src_pts errfunc with
  | None => Raise (NotImplementedError rotate translate scale)
  | Some (error, x0_default) =>
      let x0 := x0_or x0 x0_default in
      est <- leastsq kwargs error x0 ;;
      if String.eqb out str_params then Ok (Params est)
      else if String.eqb out str_trans
      then trans <- _trans_from_params rot param_info est ;; Ok (Trans trans)
      else Raise (ValueError (InvalidOut out))
  end.

End Engine.

(** The combinations [fit_point_cloud] has a residual function for. *)
Definition supported (rotate translate : bool) (scale : Z) : bool :=
  match rotate, translate, scale with
  | true, false, 0%Z => true
  | true, false, 1%Z => true
  | true, false, 3%Z => true
  | true, true, 0%Z => true
  | _, _, _ => false
  end.

End PointCloud.

(** ** Facts about the error monad *)

Section MapM.

Variables (E A B : Type).
Variable f : A -> result E B.


End MapM.

(** ** Facts about the voxel grid *)

Module DecimateFacts.

Import Decimate.
Import Lqa.
Open Scope Q_scope.

Lemma arange_edges start stop step :
  arange start stop step
  = edges start step (Z.to_nat (Qceiling ((stop - start) / step))).
Proof. reflexivity. Qed.

Lemma edge_succ s r k : edge s r (S k) == edge s r k + r.
Proof.
  unfold edge. rewrite Nat2Z.inj_succ. unfold Z.succ.
  rewrite inject_Z_plus. ring.
Qed.

Lemma edge_le s r k i : 0 < r -> (k <= i)%nat -> edge s r k <= edge s r i.
Proof.
  intros Hr Hki. unfold edge.
  assert (inject_Z (Z.of_nat k) <= inject_Z (Z.of_nat i)) as Hz
    by (rewrite <- Zle_Qle; lia).
  assert (inject_Z (Z.of_nat k) * r <= inject_Z (Z.of_nat i) * r)
    by (apply Qmult_le_compat_r; [assumption | now apply Qlt_le_weak]).
  lra.
Qed.

Lemma edge_lt s r k i : 0 < r -> (k < i)%nat -> edge s r k < edge s r i.
Proof.
  intros Hr Hki.
  apply Qlt_le_trans with (edge s r (S k)).
  - rewrite edge_succ. lra.
  - now apply edge_le.
Qed.

Lemma length_edges s r L : length (edges s r L) = L.
Proof. unfold edges. now rewrite length_map, length_seq. Qed.

Lemma nth_edges s r L i : (i < L)%nat -> nth i (edges s r L) 0 = edge s r i.
Proof.
  intros Hi. unfold edges.
  rewrite nth_indep with (d' := edge s r 0%nat)
    by (now rewrite length_map, length_seq).
  rewrite map_nth. now rewrite seq_nth.
Qed.

Lemma last_edges s r L : last (edges s r (S L)) 0 = edge s r L.
Proof.
  unfold edges. rewrite seq_S, map_app. simpl. now rewrite last_last.
Qed.

Lemma count_le_seq s r v i a n :
  0 < r -> in_cell s r i v ->
  length (filter (fun e => Qle_bool e v) (map (edge s r) (seq a n)))
  = (Nat.min (a + n) (S i) - a)%nat.
Proof.
  intros Hr [Hlo Hhi]; revert a; induction n as [|n IH]; intros a; simpl.
  - lia.
  - destruct (Qle_bool (edge s r a) v) eqn:Hle; simpl; rewrite IH.
    + apply Qle_bool_iff in Hle.
      assert (a <= i)%nat.
      { destruct (Nat.le_gt_cases a i) as [|Hgt]; [assumption|exfalso].
        assert (edge s r (S i) <= edge s r a) by (apply edge_le; [assumption|lia]).
        rewrite edge_succ in *. lra. }
      lia.
    + assert (i < a)%nat.
      { destruct (Nat.le_gt_cases a i) as [Hai|]; [exfalso|assumption].
        assert (edge s r a <= edge s r i) by now apply edge_le.
        assert (edge s r a <= v) as Hav by lra.
        apply Qle_bool_iff in Hav. congruence. }
      lia.
Qed.

Lemma digitize_edges s r L i v :
  0 < r -> (i < L)%nat -> in_cell s r i v ->
  digitize v (edges s r L) = S i.
Proof.
  intros Hr Hi Hc. unfold digitize, edges.
  rewrite (count_le_seq 0 L Hr Hc). lia.
Qed.

(** A value of a half-open cell is put by [np.histogramdd] into the bin
    of that cell. *)
Lemma bin_of_cell s r L i v :
  0 < r -> (S i < L)%nat -> in_cell s r i v ->
  bin_of v (edges s r L) = Some i.
Proof.
  intros Hr Hi Hc. unfold bin_of.
  rewrite (@digitize_edges s r L i v) by (assumption || lia).
  destruct L as [|L]; [lia|]. rewrite last_edges, length_edges.
  assert (Qeq_bool v (edge s r L) = false) as ->.
  { destruct (Qeq_bool v (edge s r L)) eqn:He; [exfalso|reflexivity].
    apply Qeq_bool_iff in He. destruct Hc as [_ Hhi].
    assert (edge s r (S i) <= edge s r L) by (apply edge_le; [assumption|lia]).
    rewrite edge_succ in *. lra. }
  simpl (S i =? 0)%nat.
  destruct (Nat.leb_spec (S L) (S i)); [lia|].
  simpl. now rewrite Nat.sub_0_r.
Qed.


(** *** The selected point *)





(** *** Cells and bins of a grid made by [np.arange] *)

Section Grid.

Variables (sx sy sz res : Q) (Lx Ly Lz : nat).
Hypothesis res_pos : 0 < res.

Let xax := edges sx res Lx.
Let yax := edges sy res Ly.
Let zax := edges sz res Lz.

Lemma Qle_bool_false a b : Qle_bool a b = false <-> b < a.
Proof.
  split; intros H.
  - apply Qnot_le_lt. intros Hle. apply Qle_bool_iff in Hle. congruence.
  - destruct (Qle_bool a b) eqn:He; [|reflexivity].
    apply Qle_bool_iff in He. lra.
Qed.

Lemma in_voxel_cells i j k p :
  in_grid Lx Ly Lz (i, j, k) ->
  in_voxel xax yax zax res (i, j, k) p = true ->
  in_cell sx res i (X p) /\ in_cell sy res j (Y p) /\ in_cell sz res k (Z p).
Proof.
  intros (Hi & Hj & Hk). unfold in_voxel, xax, yax, zax.
  rewrite !nth_edges by lia.
  rewrite !andb_true_iff, !negb_true_iff, !Qle_bool_iff, !Qle_bool_false.
  unfold in_cell. tauto.
Qed.

Lemma in_voxel_bins v p :
  in_grid Lx Ly Lz v ->
  in_voxel xax yax zax res v p = true ->
  bins_of xax yax zax p = Some v.
Proof.
  destruct v as [[i j] k]. intros Hg Hv.
  destruct (in_voxel_cells _ Hg Hv) as (Hx & Hy & Hz).
  destruct Hg as (Hi & Hj & Hk).
  unfold bins_of, xax, yax, zax.
  rewrite (@bin_of_cell sx res Lx i), (@bin_of_cell sy res Ly j),
    (@bin_of_cell sz res Lz k); (assumption || lia || reflexivity).
Qed.

End Grid.

(** *** The count array and its nonzero entries *)






(** *** One point per cell *)

Section Paired.

Variables (V P : Type).
Variable f : V -> P -> bool.
Variable G : V -> Prop.
Hypothesis f_disjoint :
  forall v w p, G v -> G w -> f v p = true -> f w p = true -> v = w.




End Paired.



(** *** Decimating twice on one grid *)

Section SameGrid.

Variables (sx sy sz res : Q) (Lx Ly Lz : nat).
Hypothesis res_pos : 0 < res.

Let xax := edges sx res Lx.
Let yax := edges sy res Ly.
Let zax := edges sz res Lz.




End SameGrid.

(** *** The nearest point of a cell *)




(** *** Properties of [_decimate_points] *)


Lemma arange_single x res :
  0 < res -> arange (x - res / 2) (x + res) res = edges (x - res / 2) res 2.
Proof.
  intros Hres. rewrite arange_edges. f_equal.
  assert ((x + res - (x - res / 2)) / res == 3 # 2) as -> by (field; lra).
  reflexivity.
Qed.

Lemma decimate_single p res :
  0 < res -> _decimate_points [p] res = Ok [p].
Proof.
  intros Hres. destruct p as [[x y] z]. unfold _decimate_points.
  cbn [bbox map amin amax fold_left bind X Y Z fst snd].
  rewrite !arange_single by assumption.
  set (xax := edges (x - res / 2) res 2).
  set (yax := edges (y - res / 2) res 2).
  set (zax := edges (z - res / 2) res 2).
  assert (in_voxel xax yax zax res (0, 0, 0)%nat (x, y, z) = true) as Hv.
  { unfold in_voxel, xax, yax, zax. rewrite !nth_edges by lia.
    unfold edge. cbn [X Y Z fst snd Z.of_nat inject_Z].
    rewrite !andb_true_iff, !negb_true_iff, !Qle_bool_iff, !Qle_bool_false.
    change (inject_Z 0) with 0. unfold Qdiv. change (/ 2) with (1 # 2).
    repeat split; lra. }
  assert (bins_of xax yax zax (x, y, z) = Some (0, 0, 0)%nat) as Hb.
  { apply (@in_voxel_bins (x - res / 2) (y - res / 2) (z - res / 2) res
             2 2 2 Hres (0, 0, 0)%nat (x, y, z)); [|exact Hv].
    unfold in_grid. lia. }
  unfold decimate_on, nonzero, histogramdd.
  unfold xax, yax, zax at 1 2 3. rewrite !length_edges.
  fold xax yax zax. cbn [Nat.sub indices seq flat_map map app filter].
  rewrite Hb. cbn [voxel_eqb Nat.eqb andb length negb filter mapM].
  unfold select. cbn [filter]. rewrite Hv. reflexivity.
Qed.




(** C5, failing input: when the largest coordinate along an axis lies on
    the last bin edge, here 1.5 = -0.5 + 2 * 1, [np.histogramdd] counts
    the point in the last cell, but the half-open mask [X < x + res] of
    the loop excludes it; the cell has no point to select and
    [np.argmin] raises ValueError instead of both points being
    returned. *)
Theorem decimate_edge_point_raises :
  _decimate_points [(0, 0, 0); (3 # 2, 0, 0)] 1
  = Raise (ValueError EmptySequence)
  /\ arange (0 - 1 / 2) ((3 # 2) + 1) 1 = [-1 # 2; 1 # 2; 3 # 2]
  /\ histogramdd [(0, 0, 0); (3 # 2, 0, 0)] [-1 # 2; 1 # 2; 3 # 2]
       [-1 # 2; 1 # 2] [-1 # 2; 1 # 2] (1, 0, 0)%nat = 1%nat
  /\ filter (in_voxel [-1 # 2; 1 # 2; 3 # 2] [-1 # 2; 1 # 2] [-1 # 2; 1 # 2]
               1 (1, 0, 0)%nat)
       [(0, 0, 0); (3 # 2, 0, 0)] = [].
Proof. repeat split; vm_compute; reflexivity. Qed.

Lemma sqdist_nonneg p mid : 0 <= sqdist p mid.
Proof.
  unfold sqdist.
  generalize (X p - X mid) (Y p - Y mid) (Z p - Z mid). intros a b c.
  Lqa.nra.
Qed.

(** The order of the squared distances is the order of the Euclidean
    distances that [cdist] returns. *)
Lemma sqdist_order p q mid :
  sqdist p mid <= sqdist q mid <->
  (sqrt (Q2R (sqdist p mid)) <= sqrt (Q2R (sqdist q mid)))%R.
Proof.
  pose proof (Qle_Rle _ _ (sqdist_nonneg p mid)) as Hp.
  pose proof (Qle_Rle _ _ (sqdist_nonneg q mid)) as Hq.
  assert (Q2R 0 = 0%R) as H0 by (unfold Q2R; simpl; Lra.lra).
  rewrite H0 in Hp, Hq.
  split; intros H.
  - apply sqrt_le_1_alt. now apply Qle_Rle.
  - apply Rle_Qle. now apply sqrt_le_0.
Qed.

End DecimateFacts.

(** ** Facts about the transforms *)

Unset Implicit Arguments.

Module CoregFacts.

Import Coreg.
Import Lra.
Open Scope R_scope.

Ltac list_eq :=
  repeat match goal with
         | |- Ok _ = Ok _ => f_equal
         | |- _ :: _ = _ :: _ => f_equal
         | |- @nil _ = @nil _ => reflexivity
         end.

Section Transforms.
Variable rot : R -> R -> R -> nat -> nat -> R.

(** What [_trans_from_params] returns: the list it reduces is
    [translation; rotation; scaling] without the disabled components. *)
Lemma trans_from_params_value r t s params :
  has_component (r, t, s) = true ->
  (n_params (r, t, s) <= length params)%nat ->
  _trans_from_params rot (r, t, s) params
  = Ok (dot (dot (translate_matrix (r, t, s) params)
                 (rotate_matrix rot (r, t, s) params))
            (scale_matrix (r, t, s) params)).
Proof.
  intros Hc Hn.
  unfold _trans_from_params, translate_matrix, rotate_matrix, scale_matrix,
    n_params, has_component in *.
  destruct r, t; destruct (Z.eqb_spec s 1); try destruct (Z.eqb_spec s 3);
    try discriminate.
  all: simpl in Hn.
  all: do 9 (try (destruct params as [|? params]; [simpl in Hn; lia|])).
  all: cbn.
  all: unfold rotation, translation, scaling, identity4; list_eq; ring.
Qed.

Lemma compose_bottom_row r t s params :
  nth 3 (dot (dot (translate_matrix (r, t, s) params)
                  (rotate_matrix rot (r, t, s) params))
             (scale_matrix (r, t, s) params)) []
  = [0; 0; 0; 1].
Proof.
  unfold translate_matrix, rotate_matrix, scale_matrix.
  destruct r, t; destruct (s =? 1)%Z; try destruct (s =? 3)%Z.
  all: cbn; list_eq; ring.
Qed.

Lemma compose_apply r t s params x y z :
  apply (dot (dot (translate_matrix (r, t, s) params)
                  (rotate_matrix rot (r, t, s) params))
             (scale_matrix (r, t, s) params)) [x; y; z; 1]
  = apply (translate_matrix (r, t, s) params)
      (apply (rotate_matrix rot (r, t, s) params)
         (apply (scale_matrix (r, t, s) params) [x; y; z; 1])).
Proof.
  unfold translate_matrix, rotate_matrix, scale_matrix.
  destruct r, t; destruct (s =? 1)%Z; try destruct (s =? 3)%Z.
  all: cbn; list_eq; ring.
Qed.

Lemma trans_from_params_no_scale r t s params :
  s <> 1%Z -> s <> 3%Z ->
  _trans_from_params rot (r, t, s) params
  = _trans_from_params rot (r, t, 0%Z) params.
Proof.
  intros H1 H3. unfold _trans_from_params.
  destruct (Z.eqb_spec s 1), (Z.eqb_spec s 3); try contradiction.
  reflexivity.
Qed.

Lemma trans_from_params_empty s params :
  s <> 1%Z -> s <> 3%Z ->
  _trans_from_params rot (false, false, s) params = Raise TypeError.
Proof.
  intros H1 H3. unfold _trans_from_params.
  destruct (Z.eqb_spec s 1), (Z.eqb_spec s 3); try contradiction.
  reflexivity.
Qed.

Lemma unpack3_not_implemented l r t s :
  unpack3 l <> Raise (NotImplementedError r t s).
Proof.
  destruct l as [|? [|? [|? [|? ?]]]]; discriminate.
Qed.

Lemma trans_from_params_not_implemented param_info params r t s :
  _trans_from_params rot param_info params
  <> Raise (NotImplementedError r t s).
Proof.
  destruct param_info as [[do_rotate do_translate] do_scale].
  unfold _trans_from_params, index, reduce.
  destruct do_rotate, do_translate; destruct (do_scale =? 1)%Z;
    try destruct (do_scale =? 3)%Z.
  all: do 9 (destruct params as [|? params]; [cbn -[dot]; discriminate|]).
  all: cbn -[dot]; discriminate.
Qed.

End Transforms.

(** *** The dispatch and the gates of [fit_matched_points] *)

Section Fit.
Variable rot : R -> R -> R -> nat -> nat -> R.
Variable leastsq :
  (list R -> result (exn R) (list R)) -> list R -> result (exn R) (list R).

Lemma shape_eqb_eq s t : shape_eqb s t = true <-> s = t.
Proof.
  unfold shape_eqb. destruct (list_eq_dec Nat.eq_dec s t); split; congruence.
Qed.

Lemma fit_shape_mismatch src tgt r t s tol x0 out :
  shape (atleast_2d src) <> shape (atleast_2d tgt) ->
  fit_matched_points rot leastsq src tgt r t s tol x0 out
  = Raise (ValueError (SameShape (shape (atleast_2d src))
                                 (shape (atleast_2d tgt)))).
Proof.
  intros H. unfold fit_matched_points.
  destruct (shape_eqb _ _) eqn:He; [|reflexivity].
  apply shape_eqb_eq in He. contradiction.
Qed.

Lemma error_of_unsupported r t s src tgt :
  supported r t s = false -> error_of rot (r, t, s) src tgt = None.
Proof.
  unfold supported, error_of.
  destruct r, t, s as [|[p|p|]|p]; (discriminate || reflexivity).
Qed.

Lemma error_of_supported r t s src tgt :
  supported r t s = true ->
  exists error, error_of rot (r, t, s) src tgt
                = Some (error, snd (match error_of rot (r, t, s) src tgt with
                                    | Some f => f
                                    | None => (fun _ => Ok [], [])
                                    end)).
Proof.
  unfold supported, error_of.
  destruct r, t, s as [|[p|p|]|p]; try discriminate; intros _; eexists;
    reflexivity.
Qed.

Lemma atleast_2d_ndim a :
  (ndim a <= 2)%nat -> ndim (atleast_2d a) = 2%nat.
Proof.
  unfold ndim, atleast_2d. destruct a as [[|n [|k [|j sh]]] d]; simpl; lia.
Qed.

Lemma hstack_ones_2d a :
  ndim a = 2%nat -> exists b, hstack_ones a = Ok b.
Proof.
  unfold ndim, hstack_ones. destruct a as [[|n [|k [|j sh]]] d]; simpl;
    try discriminate. intros _. eexists; reflexivity.
Qed.

Lemma fit_unsupported src tgt r t s tol x0 out :
  supported r t s = false ->
  shape (atleast_2d src) = shape (atleast_2d tgt) ->
  (ndim src <= 2)%nat ->
  fit_matched_points rot leastsq src tgt r t s tol x0 out
  = Raise (NotImplementedError r t s).
Proof.
  intros Hsup Hshape Hdim. unfold fit_matched_points.
  apply shape_eqb_eq in Hshape. rewrite Hshape. cbn [negb].
  apply atleast_2d_ndim in Hdim.
  destruct (hstack_ones_2d _ Hdim) as (b & Hb).
  destruct t; [rewrite Hb|]; cbn [bind]; now rewrite error_of_unsupported.
Qed.

Lemma fit_unsupported_no_result src tgt r t s tol x0 out v :
  supported r t s = false ->
  fit_matched_points rot leastsq src tgt r t s tol x0 out <> Ok v.
Proof.
  intros Hsup. unfold fit_matched_points.
  destruct (negb _); [discriminate|].
  destruct t; [destruct (hstack_ones _); cbn [bind]; [|discriminate]|
               cbn [bind]];
    now rewrite error_of_unsupported.
Qed.


Lemma supported_has_component r t s :
  supported r t s = true -> has_component (r, t, s) = true.
Proof.
  unfold supported, has_component.
  destruct r, t, s as [|[p|p|]|p]; (discriminate || reflexivity).
Qed.

Lemma compose_ncols r t s params :
  ncols (dot (dot (translate_matrix (r, t, s) params)
                  (rotate_matrix rot (r, t, s) params))
             (scale_matrix (r, t, s) params)) = 4%nat
  /\ length (dot (dot (translate_matrix (r, t, s) params)
                      (rotate_matrix rot (r, t, s) params))
                 (scale_matrix (r, t, s) params)) = 4%nat.
Proof.
  unfold translate_matrix, rotate_matrix, scale_matrix.
  destruct r, t; destruct (s =? 1)%Z; try destruct (s =? 3)%Z;
    split; reflexivity.
Qed.

Lemma any_gt_Exists err tol :
  any_gt err tol = true <-> Exists (fun e => tol < e) err.
Proof.
  unfold any_gt. rewrite existsb_exists, Exists_exists.
  split; intros (e & He & H); exists e; split; try assumption;
    destruct (Rlt_dec tol e); (assumption || discriminate || reflexivity
                               || contradiction).
Qed.

(** [fit_matched_points] after the solver has returned [x]. *)
Lemma fit_solved src tgt n r t s tol x0 out src' error x0d x :
  shape (atleast_2d src) = [n; 3%nat] ->
  shape (atleast_2d tgt) = [n; 3%nat] ->
  supported r t s = true ->
  (if t then hstack_ones (atleast_2d src) else Ok (atleast_2d src))
  = Ok src' ->
  error_of rot (r, t, s) src' (atleast_2d tgt) = Some (error, x0d) ->
  leastsq error (initial_guess x0 x0d) = Ok x ->
  (n_params (r, t, s) <= length x)%nat ->
  exists M err,
    _trans_from_params rot (r, t, s) x = Ok M /\
    fit_residuals M (atleast_2d src) (atleast_2d tgt) = Ok err /\
    fit_matched_points rot leastsq src tgt r t s tol x0 out
    = if match tol with Some tl => any_gt err tl | None => false end
      then Raise (RuntimeError err)
      else if String.eqb out str_params then Ok (Params x)
      else if String.eqb out str_trans then Ok (Trans M)
      else Raise (ValueError (InvalidOut out)).
Proof.
  intros Hsrc Htgt Hsup Hsrc' Herr Hsolve Hlen.
  pose proof (trans_from_params_value rot r t s x
                (supported_has_component _ _ _ Hsup) Hlen) as HM.
  destruct (compose_ncols r t s x) as [Hcols Hrows].
  set (M := dot _ _) in HM, Hcols, Hrows.
  unfold fit_matched_points, fit_residuals.
  destruct (atleast_2d src) as [ssh sd] eqn:Ha. simpl in Hsrc; subst ssh.
  destruct (atleast_2d tgt) as [tsh td] eqn:Hb. simpl in Htgt; subst tsh.
  assert (hstack_ones {| shape := [n; 3%nat]; data := sd |}
          = Ok {| shape := [n; 4%nat];
                  data := concat (map (fun r => r ++ [1])
                                      (rows n 3 sd)) |}) as Hh
    by reflexivity.
  set (src4 := {| shape := [n; 4%nat]; data := _ |}) in Hh.
  assert (dot_T src4 M
          = Ok {| shape := [n; 4%nat];
                  data := concat (map (fun p => map (dotp p) M)
                                      (last_axis_rows src4)) |}) as Hd.
  { unfold dot_T. cbn [shape src4 last removelast app].
    rewrite Hcols, Hrows. reflexivity. }
  set (est := {| shape := [n; 4%nat]; data := concat (map _ _) |}) in Hd.
  assert (exists d, sub (cols3 est) {| shape := [n; 3%nat]; data := td |}
                    = Ok d) as (d & Hsub).
  { unfold sub, cols3. cbn [shape est Nat.min].
    assert (shape_eqb [n; 3%nat] [n; 3%nat] = true) as ->
      by now apply shape_eqb_eq.
    eexists; reflexivity. }
  exists M, (row_norms d). split; [exact HM|]. split.
  { rewrite Hh. cbn [bind]. rewrite Hd. cbn [bind]. rewrite Hsub.
    reflexivity. }
  cbn [shape].
  assert (shape_eqb [n; 3%nat] [n; 3%nat] = true) as ->
    by now apply shape_eqb_eq.
  cbn [negb]. rewrite Hsrc'. cbn [bind]. rewrite Herr.
  fold (initial_guess x0 x0d). rewrite Hsolve. cbn [bind].
  assert (src' = if t then src4 else {| shape := [n; 3%nat]; data := sd |})
    as Hs'.
  { destruct t; [rewrite Hh in Hsrc'|]; congruence. }
  destruct tol as [tl|].
  - cbn [orb]. rewrite HM. cbn [bind].
    assert ((if negb t then hstack_ones src' else Ok src') = Ok src4) as ->.
    { rewrite Hs'. destruct t; [reflexivity | exact Hh]. }
    cbn [bind]. rewrite Hd. cbn [bind]. rewrite Hsub. cbn [bind].
    destruct (any_gt (row_norms d) tl); [reflexivity|]. cbn [bind].
    reflexivity.
  - cbn [orb]. destruct (String.eqb out str_trans) eqn:Hout.
    + rewrite HM. cbn [bind]. reflexivity.
    + cbn [bind]. reflexivity.
Qed.

End Fit.

(** *** The residual functions *)

Lemma rows_length n k d : length (rows n k d) = n.
Proof. unfold rows. now rewrite length_map, length_seq. Qed.

Lemma rows_row_length n k d :
  length d = (n * k)%nat -> Forall (fun r => length r = k) (rows n k d).
Proof.
  intros Hd. unfold rows. apply Forall_forall. intros r Hr.
  apply in_map_iff in Hr as (i & <- & Hi). apply in_seq in Hi.
  rewrite length_firstn, length_skipn, Hd. nia.
Qed.

Lemma rows_concat k (L : list (list R)) :
  Forall (fun r => length r = k) L -> rows (length L) k (concat L) = L.
Proof.
  induction 1 as [|r L Hr HL IH]; [reflexivity|].
  unfold rows in *. cbn [length seq map concat].
  rewrite Nat.mul_0_l. cbn [skipn].
  rewrite firstn_app, Hr, Nat.sub_diag, firstn_O, app_nil_r.
  rewrite firstn_all2 by lia. f_equal.
  rewrite <- seq_shift, map_map. rewrite <- IH at 2.
  apply map_ext. intros i. f_equal.
  rewrite skipn_app. rewrite Hr.
  rewrite skipn_all2 by (rewrite Hr; nia).
  cbn [app]. f_equal. nia.
Qed.

Lemma concat_map_ext_in (A B : Type) (f g : A -> list B) l :
  (forall a, In a l -> f a = g a) -> concat (map f l) = concat (map g l).
Proof. intros H. f_equal. now apply map_ext_in. Qed.

Section Residual.
Variable rot : R -> R -> R -> nat -> nat -> R.

Lemma rotation_block rx ry rz p :
  length p = 3%nat ->
  firstn 3 (map (dotp (p ++ [1])) (rotation rot rx ry rz))
  = map (dotp p) (rotation3d rot rx ry rz).
Proof.
  intros Hp. destruct p as [|a [|b [|c [|? ?]]]]; try discriminate.
  cbn. list_eq; ring.
Qed.

Lemma rotation_scaling_block rx ry rz s p :
  length p = 3%nat ->
  firstn 3 (map (dotp (p ++ [1]))
              (dot (rotation rot rx ry rz) (scaling s s s)))
  = map (dotp p) (mscale (rotation3d rot rx ry rz) s).
Proof.
  intros Hp. destruct p as [|a [|b [|c [|? ?]]]]; try discriminate.
  cbn. list_eq; ring.
Qed.

(** The top-left 3x3 block of rotation . scaling(s,s,s) is s times
    rotation3d. *)
Lemma rotation_scaling_topleft rx ry rz s :
  map (firstn 3) (firstn 3 (dot (rotation rot rx ry rz) (scaling s s s)))
  = mscale (rotation3d rot rx ry rz) s.
Proof. cbn. list_eq; ring. Qed.

(** Multiplying the points [(p, 1)] with a 4x4 matrix and keeping three
    columns is multiplying the points [p] with a 3x3 matrix, whenever the
    two matrices agree on every such point. *)
Lemma cols3_dot_hstack (M B : matrix) n sd :
  length M = 4%nat -> ncols M = 4%nat ->
  length B = 3%nat -> ncols B = 3%nat ->
  (forall p, length p = 3%nat ->
             firstn 3 (map (dotp (p ++ [1])) M) = map (dotp p) B) ->
  length sd = (n * 3)%nat ->
  exists src4 est,
    hstack_ones (mk_ndarray [n; 3%nat] sd) = Ok src4 /\
    dot_T src4 M = Ok est /\
    dot_T (mk_ndarray [n; 3%nat] sd) B = Ok (cols3 est).
Proof.
  intros HM HMc HB HBc Hblock Hsd.
  pose proof (rows_row_length n 3 sd Hsd) as Hrows.
  set (L := map (fun r => r ++ [1]) (rows n 3 sd)).
  assert (length L = n) as HL by (unfold L; now rewrite length_map, rows_length).
  assert (Forall (fun r => length r = 4%nat) L) as HL4.
  { unfold L. apply Forall_map. eapply Forall_impl; [|exact Hrows].
    simpl. intros r Hr. rewrite length_app, Hr. reflexivity. }
  eexists; eexists. split; [reflexivity|]. split.
  - unfold dot_T. cbn [shape last removelast app]. now rewrite HMc.
  - unfold dot_T, cols3, last_axis_rows.
    cbn [shape data last removelast app fold_right].
    rewrite HBc, HB, HM, Nat.mul_1_r. cbn [Nat.eqb Nat.min].
    do 2 f_equal. fold L.
    assert (rows n 4 (concat L) = L) as ->
      by (rewrite <- HL at 1; now apply rows_concat).
    set (E := map (fun p => map (dotp p) M) L).
    assert (length E = n) as HE by (unfold E; now rewrite length_map).
    assert (Forall (fun r => length r = 4%nat) E) as HE4.
    { unfold E. apply Forall_map. apply Forall_forall. intros r _.
      now rewrite length_map. }
    assert (rows n 4 (concat E) = E) as ->
      by (rewrite <- HE at 1; now apply rows_concat).
    unfold E, L. rewrite !map_map. apply concat_map_ext_in.
    intros r Hr. symmetry. apply Hblock.
    rewrite Forall_forall in Hrows. now apply Hrows.
Qed.

Lemma residual_uses_trans n r t s x src_pts tgt_pts src' error x0d :
  supported r t s = true ->
  shape src_pts = [n; 3%nat] ->
  length (data src_pts) = (n * 3)%nat ->
  (if t then hstack_ones src_pts else Ok src_pts) = Ok src' ->
  error_of rot (r, t, s) src' tgt_pts = Some (error, x0d) ->
  length x = n_params (r, t, s) ->
  exists M src4 est,
    _trans_from_params rot (r, t, s) x = Ok M /\
    hstack_ones src_pts = Ok src4 /\
    dot_T src4 M = Ok est /\
    error x = (d <- sub tgt_pts (cols3 est) ;; Ok (data d)).
Proof.
  intros Hsup Hshape Hdata Hsrc' Herr Hx.
  destruct src_pts as [sh sd]. cbn [shape data] in *. subst sh.
  unfold supported in Hsup.
  destruct r, t, s as [|[p|p|]|p]; try discriminate; cbn in Hx;
    repeat (destruct x as [|? x]; try discriminate);
    cbn [error_of] in Herr; injection Herr as <- <-.
  - unfold hstack_ones in Hsrc'. cbn [shape data] in Hsrc'.
    injection Hsrc' as <-.
    eexists; eexists; eexists.
    split; [reflexivity|]. split; [reflexivity|]. split; [reflexivity|].
    reflexivity.
  - unfold hstack_ones in Hsrc'. cbn [shape data] in Hsrc'.
    injection Hsrc' as <-.
    eexists; eexists; eexists.
    split; [reflexivity|]. split; [reflexivity|]. split; [reflexivity|].
    reflexivity.
  - injection Hsrc' as <-.
    destruct (@cols3_dot_hstack (rotation rot r r0 r1)
                (rotation3d rot r r0 r1) n sd) as (src4 & est & H1 & H2 & H3);
      try reflexivity; try assumption.
    { intros p Hp. now apply rotation_block. }
    exists (rotation rot r r0 r1), src4, est.
    repeat split; try assumption. cbv beta iota. now rewrite H3.
  - injection Hsrc' as <-.
    destruct (@cols3_dot_hstack (dot (rotation rot r r0 r1) (scaling r2 r2 r2))
                (mscale (rotation3d rot r r0 r1) r2) n sd)
      as (src4 & est & H1 & H2 & H3);
      try reflexivity; try assumption.
    { intros p Hp. now apply rotation_scaling_block. }
    exists (dot (rotation rot r r0 r1) (scaling r2 r2 r2)), src4, est.
    repeat split; try assumption. cbv beta iota.
    unfold mscale, rotation3d in H3. cbn [map] in H3. now rewrite H3.
Qed.

End Residual.

(** *** The head frame *)

Lemma bad_point_iff pt :
  bad_point pt = true <-> ndim pt <> 1%nat \/ len pt <> 3%nat.
Proof.
  unfold bad_point.
  rewrite orb_true_iff, !negb_true_iff, !Nat.eqb_neq. tauto.
Qed.

Lemma get_ras_bad_point nasion lpa rpa :
  bad_point nasion = true \/ bad_point lpa = true \/ bad_point rpa = true ->
  get_ras_to_neuromag_trans nasion lpa rpa = Raise (ValueError PointsShape).
Proof.
  intros H. unfold get_ras_to_neuromag_trans.
  assert (existsb bad_point [nasion; lpa; rpa] = true) as ->; [|reflexivity].
  cbn [existsb]. rewrite !orb_true_iff. tauto.
Qed.

Lemma norm_2_0_0 : norm [2; 0; 0] = 2.
Proof.
  unfold norm. cbn [map fold_right].
  replace (2 ^ 2 + (0 ^ 2 + (0 ^ 2 + 0))) with (2 * 2) by ring.
  apply sqrt_square. lra.
Qed.

Lemma norm_0_1_0 : norm [0; 1; 0] = 1.
Proof.
  unfold norm. cbn [map fold_right].
  replace (0 ^ 2 + (1 ^ 2 + (0 ^ 2 + 0))) with 1 by ring.
  apply sqrt_1.
Qed.

Lemma get_ras_aligned :
  get_ras_to_neuromag_trans (vec3 0 1 0) (vec3 (-1) 0 0) (vec3 1 0 0)
  = Ok identity4.
Proof.
  unfold get_ras_to_neuromag_trans.
  cbn [existsb bad_point vec3 ndim len shape data length hd Nat.eqb negb orb].
  assert (vsub [1; 0; 0] [-1; 0; 0] = [2; 0; 0]) as ->
    by (cbn; list_eq; ring).
  rewrite norm_2_0_0.
  assert (vdiv [2; 0; 0] 2 = [1; 0; 0]) as -> by (cbn; list_eq; field).
  assert (vsub [0; 1; 0] [-1; 0; 0] = [1; 1; 0]) as ->
    by (cbn; list_eq; ring).
  assert (vadd [-1; 0; 0] (vmul (dotp [1; 1; 0] [1; 0; 0]) [1; 0; 0])
          = [0; 0; 0]) as -> by (cbn; list_eq; ring).
  assert (vsub [0; 1; 0] [0; 0; 0] = [0; 1; 0]) as ->
    by (cbn; list_eq; ring).
  rewrite norm_0_1_0.
  assert (vdiv [0; 1; 0] 1 = [0; 1; 0]) as -> by (cbn; list_eq; field).
  cbn. unfold identity4. list_eq; ring.
Qed.

(** *** Properties of [_trans_from_params] *)

(** C1, amended: for every descriptor that enables a component and every
    parameter vector long enough for it, [_trans_from_params] returns
    translate_matrix . rotate_matrix . scale_matrix (a disabled component
    being the identity); applied to a homogeneous point (x,y,z,1) it
    scales first, then rotates, then translates. *)
Theorem trans_from_params_order rot r t s params :
  has_component (r, t, s) = true ->
  (n_params (r, t, s) <= length params)%nat ->
  exists M,
    _trans_from_params rot (r, t, s) params = Ok M /\
    M = dot (dot (translate_matrix (r, t, s) params)
                 (rotate_matrix rot (r, t, s) params))
            (scale_matrix (r, t, s) params) /\
    forall x y z,
      apply M [x; y; z; 1]
      = apply (translate_matrix (r, t, s) params)
          (apply (rotate_matrix rot (r, t, s) params)
             (apply (scale_matrix (r, t, s) params) [x; y; z; 1])).
Proof.
  intros Hc Hn. eexists. split; [now apply trans_from_params_value|].
  split; [reflexivity|]. intros x y z. apply compose_apply.
Qed.

Lemma trans_from_params_order_witness :
  exists M,
    _trans_from_params euler (true, true, 1%Z) [0; 0; 0; 1; 0; 0; 2] = Ok M /\
    M = dot (dot (translation 1 0 0) (rotation euler 0 0 0))
            (scaling 2 2 2) /\
    forall x y z,
      apply M [x; y; z; 1]
      = apply (translation 1 0 0)
          (apply (rotation euler 0 0 0)
             (apply (scaling 2 2 2) [x; y; z; 1])).
Proof.
  apply (trans_from_params_order euler true true 1%Z [0; 0; 0; 1; 0; 0; 2]).
  - reflexivity.
  - simpl; lia.
Defined.

(** C1 as stated fails: for rotate + translate + scale(1) with zero
    angles, translation (1,0,0) and scale 2 the result is not
    scale_matrix . translate_matrix . rotate_matrix; its entry (0,3), the
    x coordinate of the image of the origin, is 1 and not 2. *)
Lemma scale_translate_rotate_differs :
  _trans_from_params euler (true, true, 1%Z) [0; 0; 0; 1; 0; 0; 2]
  <> Ok (dot (dot (scale_matrix (true, true, 1%Z) [0; 0; 0; 1; 0; 0; 2])
                  (translate_matrix (true, true, 1%Z) [0; 0; 0; 1; 0; 0; 2]))
             (rotate_matrix euler (true, true, 1%Z) [0; 0; 0; 1; 0; 0; 2])).
Proof.
  intros H.
  apply (f_equal (fun res => match res with
                             | Ok m => nth 3 (nth 0 m []) 0
                             | Raise _ => 0
                             end)) in H.
  cbn in H. lra.
Qed.

(** C7: for every descriptor that enables a component and every
    parameter vector long enough for it, [_trans_from_params] returns a
    matrix whose bottom row is exactly [0,0,0,1]. *)
Theorem trans_from_params_bottom_row rot r t s params :
  has_component (r, t, s) = true ->
  (n_params (r, t, s) <= length params)%nat ->
  exists M,
    _trans_from_params rot (r, t, s) params = Ok M /\
    nth 3 M [] = [0; 0; 0; 1].
Proof.
  intros Hc Hn. eexists. split; [now apply trans_from_params_value|].
  apply compose_bottom_row.
Qed.

Lemma trans_from_params_bottom_row_witness :
  exists M,
    _trans_from_params euler (true, true, 1%Z) [0; 0; 0; 1; 0; 0; 2] = Ok M /\
    nth 3 M [] = [0; 0; 0; 1].
Proof.
  apply (trans_from_params_bottom_row euler true true 1%Z
           [0; 0; 0; 1; 0; 0; 2]).
  - reflexivity.
  - simpl; lia.
Defined.

(** C9 as stated fails: [_trans_from_params] does not check the
    descriptor.  With [do_scale = 2] it returns the rotation matrix, and
    with every component disabled it raises the TypeError of [reduce] on
    an empty list, which names no combination. *)
Lemma trans_from_params_accepts_any_descriptor :
  _trans_from_params euler (true, false, 2%Z) [0; 0; 0]
  = Ok (rotation euler 0 0 0)
  /\ _trans_from_params euler (false, false, 0%Z) [] = Raise TypeError.
Proof. split; reflexivity. Qed.

(** *** Properties of the fit and of the head frame *)

Lemma atleast_2d_id a : (2 <= ndim a)%nat -> atleast_2d a = a.
Proof.
  unfold ndim, atleast_2d. destruct a as [[|n [|k sh]] d]; simpl; try lia.
  reflexivity.
Qed.

(** C2: [fit_matched_points] has a residual function for exactly the
    four combinations (True,False,0), (True,False,1), (True,True,0),
    (True,True,1); for every other combination it returns no result,
    and on point sets of equal shape (arrays of at most two dimensions)
    it raises NotImplementedError carrying the offending
    (rotate, translate, scale). *)
Theorem fit_matched_points_combinations rot leastsq src tgt r t s tol x0 out :
  (error_of rot (r, t, s) src tgt <> None <-> supported r t s = true)
  /\ (supported r t s = false ->
      (forall v,
         fit_matched_points rot leastsq src tgt r t s tol x0 out <> Ok v)
      /\ (shape (atleast_2d src) = shape (atleast_2d tgt) ->
          (ndim src <= 2)%nat ->
          fit_matched_points rot leastsq src tgt r t s tol x0 out
          = Raise (NotImplementedError r t s))).
Proof.
  split.
  - destruct (supported r t s) eqn:Hs.
    + destruct (error_of_supported rot r t s src tgt Hs) as (f & ->).
      split; [reflexivity | discriminate].
    + rewrite (error_of_unsupported rot r t s src tgt Hs).
      split; [congruence | discriminate].
  - intros Hs. split.
    + intros v. now apply fit_unsupported_no_result.
    + intros Hshape Hdim. now apply fit_unsupported.
Qed.

Lemma fit_matched_points_combinations_witness :
  fit_matched_points euler leastsq_at_x0 src1 tgt1 false true 3%Z None None
    str_trans
  = Raise (NotImplementedError false true 3%Z).
Proof.
  destruct (fit_matched_points_combinations euler leastsq_at_x0 src1 tgt1
              false true 3%Z None None str_trans) as [_ H].
  destruct (H eq_refl) as [_ H']. apply H'.
  - reflexivity.
  - unfold ndim, src1; simpl; lia.
Defined.

(** *** The tolerance gate *)

Lemma rows_S n k d :
  rows (S n) k d = firstn k d :: rows n k (skipn k d).
Proof.
  unfold rows. cbn [seq map]. rewrite Nat.mul_0_l. cbn [skipn]. f_equal.
  rewrite <- seq_shift, map_map. apply map_ext. intros i.
  rewrite skipn_skipn. do 2 f_equal. lia.
Qed.

Lemma concat_rows n k : forall d,
  length d = (n * k)%nat -> concat (rows n k d) = d.
Proof.
  induction n as [|n IH]; intros d Hd.
  - destruct d; [reflexivity | discriminate].
  - rewrite rows_S. cbn [concat]. rewrite IH.
    + apply firstn_skipn.
    + rewrite length_skipn, Hd. lia.
Qed.

Lemma combine_app_same (A B : Type) (a : list A) : forall (b : list B) a' b',
  length a = length b ->
  combine (a ++ a') (b ++ b') = combine a b ++ combine a' b'.
Proof.
  induction a as [|x a IH]; intros [|y b] a' b' H; try discriminate.
  - reflexivity.
  - cbn. f_equal. apply IH. now injection H.
Qed.

Lemma combine_concat k (A : list (list R)) : forall B : list (list R),
  length A = length B ->
  Forall (fun r => length r = k) A -> Forall (fun r => length r = k) B ->
  combine (concat A) (concat B)
  = concat (map (fun ab => combine (fst ab) (snd ab)) (combine A B)).
Proof.
  induction A as [|a A IH]; intros [|b B] Hl HA HB; try discriminate.
  - reflexivity.
  - inversion HA; inversion HB; subst. cbn [concat combine map fst snd].
    rewrite combine_app_same by congruence. f_equal.
    apply IH; [now injection Hl | assumption | assumption].
Qed.

Lemma combine_map_l (A B C : Type) (g : A -> C) (l : list A) :
  forall l' : list B,
    combine (map g l) l' = map (fun ab => (g (fst ab), snd ab)) (combine l l').
Proof.
  induction l as [|a l IH]; intros [|b l']; try reflexivity.
  cbn. f_equal. apply IH.
Qed.

(** The residual norms the tolerance is compared with are the distances
    between the images of the source points and the target points. *)
Lemma fit_residuals_distances M n sd td :
  length M = 4%nat -> ncols M = 4%nat ->
  length sd = (n * 3)%nat -> length td = (n * 3)%nat ->
  fit_residuals M (mk_ndarray [n; 3%nat] sd) (mk_ndarray [n; 3%nat] td)
  = Ok (point_distances M (mk_ndarray [n; 3%nat] sd)
          (mk_ndarray [n; 3%nat] td)).
Proof.
  intros HM HMc Hsd Htd.
  pose proof (rows_row_length n 3 sd Hsd) as HS.
  pose proof (rows_row_length n 3 td Htd) as HT.
  unfold fit_residuals, point_distances, hstack_ones.
  cbn [shape data len hd bind].
  set (S := rows n 3 sd) in *. set (T := rows n 3 td) in *.
  set (L := map (fun r => r ++ [1]) S).
  assert (length S = n) as HSn by (unfold S; apply rows_length).
  assert (length T = n) as HTn by (unfold T; apply rows_length).
  assert (length L = n) as HL by (unfold L; now rewrite length_map).
  assert (Forall (fun r => length r = 4%nat) L) as HL4.
  { unfold L. apply Forall_map. eapply Forall_impl; [|exact HS].
    simpl. intros r Hr. rewrite length_app, Hr. reflexivity. }
  unfold dot_T. cbn [shape data last removelast app]. rewrite HMc.
  cbn [Nat.eqb bind]. unfold last_axis_rows.
  cbn [shape data last removelast fold_right]. rewrite Nat.mul_1_r.
  assert (rows n 4 (concat L) = L) as ->
    by (rewrite <- HL at 1; now apply rows_concat).
  set (E := map (fun p => map (dotp p) M) L).
  assert (length E = n) as HE by (unfold E; now rewrite length_map).
  assert (Forall (fun r => length r = 4%nat) E) as HE4.
  { unfold E. apply Forall_map. apply Forall_forall. intros r _.
    now rewrite length_map. }
  unfold cols3. cbn [shape data]. rewrite HM.
  assert (rows n 4 (concat E) = E) as ->
    by (rewrite <- HE at 1; now apply rows_concat).
  set (F := map (firstn 3) E).
  assert (length F = n) as HF by (unfold F; now rewrite length_map).
  assert (Forall (fun r => length r = 3%nat) F) as HF3.
  { unfold F. apply Forall_map. eapply Forall_impl; [|exact HE4].
    cbv beta. intros r Hr. rewrite length_firstn, Hr. reflexivity. }
  unfold sub. cbn [shape data Nat.min].
  assert (shape_eqb [n; 3%nat] [n; 3%nat] = true) as ->
    by now apply shape_eqb_eq.
  cbn [bind]. f_equal. unfold row_norms, last_axis_rows.
  cbn [shape data last removelast fold_right]. rewrite Nat.mul_1_r.
  rewrite <- (concat_rows n 3 td Htd) at 1. fold T.
  rewrite (combine_concat 3 F T) by (congruence || assumption).
  rewrite concat_map.
  set (Y := map (map _) _).
  assert (length Y = n) as HY.
  { unfold Y. rewrite !length_map, length_combine. lia. }
  assert (Forall (fun r => length r = 3%nat) Y) as HY3.
  { unfold Y. rewrite map_map. apply Forall_map. apply Forall_forall.
    intros [a b] Hab. cbn [fst snd]. rewrite length_map, length_combine.
    rewrite Forall_forall in HF3, HT.
    rewrite (HF3 a (in_combine_l _ _ _ _ Hab)),
            (HT b (in_combine_r _ _ _ _ Hab)). reflexivity. }
  assert (rows n 3 (concat Y) = Y) as ->
    by (rewrite <- HY at 1; now apply rows_concat).
  unfold Y, F, E, L. rewrite !map_map, combine_map_l, map_map.
  apply map_ext. intros [p q]. cbn [fst snd]. unfold distance, apply.
  f_equal. f_equal. rewrite map_map. reflexivity.
Qed.

(** C3 as stated fails: without a tolerance the call can still fail, with
    the error of the solver.  For one matched point, rotation and
    translation (a supported combination, source and target of one
    shape) there are three residuals for six parameters, which
    [scipy.optimize.leastsq] refuses with TypeError. *)
Lemma fit_without_tolerance_raises :
  shape src1 = shape tgt1
  /\ supported true true 0%Z = true
  /\ fit_matched_points euler leastsq_checked src1 tgt1 true true 0%Z
       None None str_trans
     = Raise TypeError.
Proof. repeat split. Qed.

(** C3, amended: for source and target of shape (n,3) and a supported
    combination on which the solver returns an estimate [x], let [err] be
    the Euclidean distances between the images of the source points under
    the matrix of [x] and their target points.  With a tolerance, if any
    of them exceeds it the call raises RuntimeError carrying [err] (and
    returns the matrix or [x] otherwise); without a tolerance the call returns the
    matrix ([out = 'trans']) or [x] ([out = 'params']), whatever the
    distances are.  (When the solver raises, so does the call, with or
    without a tolerance.) *)
Theorem fit_matched_points_tolerance_gate rot leastsq src tgt n r t s x0
  src' error x0d x :
  shape (atleast_2d src) = [n; 3%nat] ->
  shape (atleast_2d tgt) = [n; 3%nat] ->
  length (data src) = (n * 3)%nat ->
  length (data tgt) = (n * 3)%nat ->
  supported r t s = true ->
  (if t then hstack_ones (atleast_2d src) else Ok (atleast_2d src))
  = Ok src' ->
  error_of rot (r, t, s) src' (atleast_2d tgt) = Some (error, x0d) ->
  leastsq error (initial_guess x0 x0d) = Ok x ->
  (n_params (r, t, s) <= length x)%nat ->
  exists M err,
    _trans_from_params rot (r, t, s) x = Ok M /\
    err = point_distances M (atleast_2d src) (atleast_2d tgt) /\
    fit_residuals M (atleast_2d src) (atleast_2d tgt) = Ok err /\
    (forall tol out,
       Exists (fun e => tol < e) err ->
       fit_matched_points rot leastsq src tgt r t s (Some tol) x0 out
       = Raise (RuntimeError err)) /\
    (forall tol,
       ~ Exists (fun e => tol < e) err ->
       fit_matched_points rot leastsq src tgt r t s (Some tol) x0 str_trans
       = Ok (Trans M)
       /\ fit_matched_points rot leastsq src tgt r t s (Some tol) x0
            str_params
          = Ok (Params x)) /\
    fit_matched_points rot leastsq src tgt r t s None x0 str_trans
    = Ok (Trans M) /\
    fit_matched_points rot leastsq src tgt r t s None x0 str_params
    = Ok (Params x).
Proof.
  intros Hsrc Htgt Hsd Htd Hsup Hsrc' Herr Hsolve Hlen.
  destruct (fit_solved rot leastsq src tgt n r t s None x0 str_trans
              src' error x0d x Hsrc Htgt Hsup Hsrc' Herr Hsolve Hlen)
    as (M & err & HM & Hres & Htrans).
  exists M, err. split; [exact HM|].
  split; [|split; [exact Hres|split; [|split; [|split]]]].
  - pose proof (trans_from_params_value rot r t s x
                  (supported_has_component _ _ _ Hsup) Hlen) as HM'.
    destruct (compose_ncols rot r t s x) as [Hcols Hrows].
    set (M0 := dot _ _) in HM', Hcols, Hrows.
    assert (M = M0) as EM by congruence. rewrite <- EM in Hcols, Hrows.
    clearbody M0. clear EM HM'.
    assert (forall a, data (atleast_2d a) = data a) as Hdata.
    { intros a. unfold atleast_2d.
      destruct (shape a) as [|? [|? ?]]; reflexivity. }
    assert (atleast_2d src = mk_ndarray [n; 3%nat] (data src)) as Es.
    { rewrite <- Hdata, <- Hsrc. now destruct (atleast_2d src). }
    assert (atleast_2d tgt = mk_ndarray [n; 3%nat] (data tgt)) as Et.
    { rewrite <- Hdata, <- Htgt. now destruct (atleast_2d tgt). }
    rewrite Es, Et in Hres |- *.
    rewrite fit_residuals_distances in Hres by assumption.
    now injection Hres.
  - intros tol out Hex.
    destruct (fit_solved rot leastsq src tgt n r t s (Some tol) x0 out
                src' error x0d x Hsrc Htgt Hsup Hsrc' Herr Hsolve Hlen)
      as (M' & err' & HM' & Hres' & ->).
    assert (err' = err) as -> by congruence.
    apply any_gt_Exists in Hex. now rewrite Hex.
  - intros tol Hno.
    assert (any_gt err tol = false) as Hany.
    { destruct (any_gt err tol) eqn:Hany; [|reflexivity].
      apply any_gt_Exists in Hany. contradiction. }
    split.
    + destruct (fit_solved rot leastsq src tgt n r t s (Some tol) x0
                  str_trans src' error x0d x Hsrc Htgt Hsup Hsrc' Herr
                  Hsolve Hlen) as (M' & err' & HM' & Hres' & ->).
      assert (err' = err) as -> by congruence.
      assert (M' = M) as -> by congruence.
      now rewrite Hany.
    + destruct (fit_solved rot leastsq src tgt n r t s (Some tol) x0
                  str_params src' error x0d x Hsrc Htgt Hsup Hsrc' Herr
                  Hsolve Hlen) as (M' & err' & HM' & Hres' & ->).
      assert (err' = err) as -> by congruence.
      now rewrite Hany.
  - exact Htrans.
  - destruct (fit_solved rot leastsq src tgt n r t s None x0 str_params
                src' error x0d x Hsrc Htgt Hsup Hsrc' Herr Hsolve Hlen)
      as (M' & err' & HM' & Hres' & ->). reflexivity.
Qed.

Lemma fit_matched_points_tolerance_gate_witness :
  exists M err,
    _trans_from_params euler (true, false, 0%Z) [0; 0; 0] = Ok M /\
    err = point_distances M (atleast_2d src1) (atleast_2d tgt1) /\
    fit_residuals M (atleast_2d src1) (atleast_2d tgt1) = Ok err /\
    (forall tol out,
       Exists (fun e => tol < e) err ->
       fit_matched_points euler leastsq_at_x0 src1 tgt1 true false 0%Z
         (Some tol) None out
       = Raise (RuntimeError err)) /\
    (forall tol,
       ~ Exists (fun e => tol < e) err ->
       fit_matched_points euler leastsq_at_x0 src1 tgt1 true false 0%Z
         (Some tol) None str_trans
       = Ok (Trans M)
       /\ fit_matched_points euler leastsq_at_x0 src1 tgt1 true false 0%Z
            (Some tol) None str_params
          = Ok (Params [0; 0; 0])) /\
    fit_matched_points euler leastsq_at_x0 src1 tgt1 true false 0%Z None None
      str_trans
    = Ok (Trans M) /\
    fit_matched_points euler leastsq_at_x0 src1 tgt1 true false 0%Z None None
      str_params
    = Ok (Params [0; 0; 0]).
Proof.
  eapply (fit_matched_points_tolerance_gate euler leastsq_at_x0 src1 tgt1
            1 true false 0%Z None).
  - reflexivity.
  - reflexivity.
  - reflexivity.
  - reflexivity.
  - reflexivity.
  - reflexivity.
  - reflexivity.
  - reflexivity.
  - simpl; lia.
Defined.

(** The gate on the example: the image of (1,0,0) under the identity
    rotation is at distance 2 from (3,0,0). *)
Lemma fit_tolerance_example :
  fit_matched_points euler leastsq_at_x0 src1 tgt1 true false 0%Z (Some 1)
    None str_trans
  = Raise (RuntimeError [2])
  /\ fit_matched_points euler leastsq_at_x0 src1 tgt1 true false 0%Z None
       None str_trans
     = Ok (Trans (rotation euler 0 0 0)).
Proof.
  assert (forall tol,
            exists err,
              fit_residuals (rotation euler 0 0 0) src1 tgt1 = Ok err /\
              fit_matched_points euler leastsq_at_x0 src1 tgt1 true false 0%Z
                tol None str_trans
              = if match tol with Some tl => any_gt err tl | None => false end
                then Raise (RuntimeError err)
                else Ok (Trans (rotation euler 0 0 0))) as Hfit.
  { intros tol.
    edestruct (fit_solved euler leastsq_at_x0 src1 tgt1 1 true false 0%Z
                 tol None str_trans) as (M & err & HM & Hres & Hfit);
      [reflexivity | reflexivity | reflexivity | reflexivity | reflexivity
      | reflexivity | simpl; lia |].
    injection HM as <-. exists err. split; [exact Hres | exact Hfit]. }
  assert (fit_residuals (rotation euler 0 0 0) src1 tgt1 = Ok [2]) as Hres.
  { cbn. rewrite !cos_0, !sin_0. do 2 f_equal.
    replace (_ + _) with (2 * 2) by ring. apply sqrt_square. lra. }
  split.
  - destruct (Hfit (Some 1)) as (err & Herr & ->).
    assert (err = [2]) as -> by congruence.
    assert (any_gt [2] 1 = true) as ->; [|reflexivity].
    apply any_gt_Exists. constructor. lra.
  - destruct (Hfit None) as (err & _ & ->). reflexivity.
Qed.

(** *** The shape checks *)

Lemma hstack_ones_raises a e :
  hstack_ones a = Raise e -> e = ValueError ShapesNotAligned.
Proof.
  unfold hstack_ones. destruct (shape a) as [|n [|k [|j sh]]]; congruence.
Qed.

Lemma dot_T_raises a trans e :
  dot_T a trans = Raise e -> e = ValueError ShapesNotAligned.
Proof. unfold dot_T. destruct (_ =? _)%nat; congruence. Qed.

Lemma sub_raises a b e :
  sub a b = Raise e -> e = ValueError ShapesNotAligned.
Proof. unfold sub. destruct (shape_eqb _ _); congruence. Qed.

Lemma trans_from_params_not_same_shape rot param_info params a b :
  _trans_from_params rot param_info params
  <> Raise (ValueError (SameShape a b)).
Proof.
  destruct param_info as [[do_rotate do_translate] do_scale].
  unfold _trans_from_params, index, reduce.
  destruct do_rotate, do_translate; destruct (do_scale =? 1)%Z;
    try destruct (do_scale =? 3)%Z.
  all: do 9 (destruct params as [|? params]; [cbn -[dot]; discriminate|]).
  all: cbn -[dot]; discriminate.
Qed.

(** Once the shapes agree, the shape error can only come from the
    solver. *)
Lemma fit_same_shape_passes rot leastsq src tgt r t s tol x0 out a b :
  shape (atleast_2d src) = shape (atleast_2d tgt) ->
  (forall f x, leastsq f x <> Raise (ValueError (SameShape a b))) ->
  fit_matched_points rot leastsq src tgt r t s tol x0 out
  <> Raise (ValueError (SameShape a b)).
Proof.
  intros Hshape Hsolver. unfold fit_matched_points.
  apply shape_eqb_eq in Hshape. rewrite Hshape. cbn [negb].
  destruct (if t then _ else _) as [src'|e] eqn:Hsrc; cbn [bind].
  2: { destruct t; [|discriminate]. apply hstack_ones_raises in Hsrc.
       subst e. discriminate. }
  destruct (error_of rot (r, t, s) src' (atleast_2d tgt)) as [[error x0d]|];
    [|discriminate].
  destruct (leastsq error _) as [x|e] eqn:Hx; cbn [bind];
    [|intros Heq; injection Heq as ->; exact (Hsolver _ _ Hx)].
  destruct (_ || _).
  - destruct (_trans_from_params rot (r, t, s) x) as [M|e] eqn:HM;
      cbn [bind];
      [|intros Heq; injection Heq as ->;
        exact (trans_from_params_not_same_shape _ _ _ _ _ HM)].
    destruct tol as [tl|].
    + destruct (if negb t then _ else _) as [src4|e] eqn:H4; cbn [bind].
      2: { destruct (negb t); [|discriminate].
           apply hstack_ones_raises in H4. subst e. discriminate. }
      destruct (dot_T src4 M) as [est|e] eqn:Hd; cbn [bind];
        [|apply dot_T_raises in Hd; subst e; discriminate].
      destruct (sub (cols3 est) (atleast_2d tgt)) as [d|e] eqn:Hs;
        cbn [bind]; [|apply sub_raises in Hs; subst e; discriminate].
      destruct (any_gt _ _); cbn [bind]; [discriminate|].
      destruct (String.eqb out str_params); [discriminate|].
      destruct (String.eqb out str_trans); discriminate.
    + cbn [bind]. destruct (String.eqb out str_params); [discriminate|].
      destruct (String.eqb out str_trans); discriminate.
  - cbn [bind]. destruct tol; cbn [bind];
      (destruct (String.eqb out str_params); [discriminate|]);
      destruct (String.eqb out str_trans); discriminate.
Qed.

Lemma get_ras_good_points nasion lpa rpa :
  existsb bad_point [nasion; lpa; rpa] = false ->
  get_ras_to_neuromag_trans nasion lpa rpa <> Raise (ValueError PointsShape).
Proof.
  intros H. unfold get_ras_to_neuromag_trans. rewrite H.
  destruct (unpack3 _) as [[[x y] z]|e] eqn:Hu; cbn [bind]; [discriminate|].
  unfold unpack3 in Hu.
  destruct (vneg _) as [|? [|? [|? [|? ?]]]]; congruence.
Qed.

(** C8 as stated fails: a source of shape (3,) and a target of shape
    (1,3) do not have the same shape, yet [fit_matched_points] accepts
    them, since it compares the shapes after [np.atleast_2d]. *)
Lemma shape_mismatch_accepted :
  shape (vec3 1 0 0) <> shape tgt1
  /\ fit_matched_points euler leastsq_at_x0 (vec3 1 0 0) tgt1
       true false 0%Z None None str_params
     = Ok (Params [0; 0; 0]).
Proof. split; [discriminate | reflexivity]. Qed.

(** C8, amended: [fit_matched_points] compares the shapes of source and
    target after [np.atleast_2d].  Whenever these differ it raises
    ValueError carrying both, whatever the solver and the other arguments
    are; whenever they agree the shape error is not raised (unless the
    solver itself raises it).  For arrays of two or more dimensions these
    are the shapes passed in.  [get_ras_to_neuromag_trans] raises its
    ValueError whenever one of the three landmarks is not a
    one-dimensional array of length 3, and only then. *)
Theorem shape_mismatch_raises rot leastsq src tgt r t s tol x0 out
  nasion lpa rpa :
  (shape (atleast_2d src) <> shape (atleast_2d tgt) ->
   fit_matched_points rot leastsq src tgt r t s tol x0 out
   = Raise (ValueError (SameShape (shape (atleast_2d src))
                                  (shape (atleast_2d tgt)))))
  /\ (shape (atleast_2d src) = shape (atleast_2d tgt) ->
      forall a b,
        (forall f x, leastsq f x <> Raise (ValueError (SameShape a b))) ->
        fit_matched_points rot leastsq src tgt r t s tol x0 out
        <> Raise (ValueError (SameShape a b)))
  /\ ((2 <= ndim src)%nat -> (2 <= ndim tgt)%nat ->
      shape src <> shape tgt ->
      fit_matched_points rot leastsq src tgt r t s tol x0 out
      = Raise (ValueError (SameShape (shape src) (shape tgt))))
  /\ ((ndim nasion <> 1%nat \/ len nasion <> 3%nat)
      \/ (ndim lpa <> 1%nat \/ len lpa <> 3%nat)
      \/ (ndim rpa <> 1%nat \/ len rpa <> 3%nat) ->
      get_ras_to_neuromag_trans nasion lpa rpa
      = Raise (ValueError PointsShape))
  /\ ((ndim nasion = 1%nat /\ len nasion = 3%nat)
      /\ (ndim lpa = 1%nat /\ len lpa = 3%nat)
      /\ (ndim rpa = 1%nat /\ len rpa = 3%nat) ->
      get_ras_to_neuromag_trans nasion lpa rpa
      <> Raise (ValueError PointsShape)).
Proof.
  split; [|split; [|split; [|split]]].
  - apply fit_shape_mismatch.
  - intros Hshape a b Hsolver. now apply fit_same_shape_passes.
  - intros Hs Ht Hne.
    pose proof (fit_shape_mismatch rot leastsq src tgt r t s tol x0 out) as H.
    rewrite (atleast_2d_id src Hs), (atleast_2d_id tgt Ht) in H.
    now apply H.
  - intros H. apply get_ras_bad_point. rewrite !bad_point_iff. exact H.
  - intros ([Hn1 Hn2] & [Hl1 Hl2] & [Hr1 Hr2]). apply get_ras_good_points.
    unfold existsb, bad_point.
    rewrite Hn1, Hn2, Hl1, Hl2, Hr1, Hr2. reflexivity.
Qed.

Lemma shape_mismatch_raises_witness :
  fit_matched_points euler leastsq_at_x0
    (mk_ndarray [2%nat; 3%nat] [1; 0; 0; 0; 1; 0]) tgt1
    true true 0%Z None None str_trans
  = Raise (ValueError (SameShape [2%nat; 3%nat] [1%nat; 3%nat]))
  /\ (forall a b,
        fit_matched_points euler (fun _ x0 => Ok x0) (vec3 1 0 0) tgt1
          true false 0%Z None None str_params
        <> Raise (ValueError (SameShape a b)))
  /\ get_ras_to_neuromag_trans (mk_ndarray [2%nat] [0; 1]) (vec3 (-1) 0 0)
       (vec3 1 0 0)
     = Raise (ValueError PointsShape)
  /\ get_ras_to_neuromag_trans (vec3 0 1 0) (vec3 (-1) 0 0) (vec3 1 0 0)
     <> Raise (ValueError PointsShape).
Proof.
  destruct (shape_mismatch_raises euler leastsq_at_x0
              (mk_ndarray [2%nat; 3%nat] [1; 0; 0; 0; 1; 0]) tgt1
              true true 0%Z None None str_trans
              (mk_ndarray [2%nat] [0; 1]) (vec3 (-1) 0 0) (vec3 1 0 0))
    as (H1 & _ & _ & H4 & _).
  destruct (shape_mismatch_raises euler (fun _ x0 => Ok x0)
              (vec3 1 0 0) tgt1 true false 0%Z None None str_params
              (vec3 0 1 0) (vec3 (-1) 0 0) (vec3 1 0 0))
    as (_ & H2 & _ & _ & H5).
  split; [apply H1; discriminate|].
  split.
  - intros a b. apply H2; [reflexivity | discriminate].
  - split; [apply H4; left; right; discriminate|].
    apply H5. repeat split; reflexivity.
Defined.

(** C6: for nasion = (0,1,0), lpa = (-1,0,0), rpa = (1,0,0),
    [get_ras_to_neuromag_trans] returns a 4x4 matrix whose rotation part
    maps (1,0,0) to (1,0,0) and whose translation column is (0,0,0). *)
Theorem get_ras_aligned_landmarks :
  exists trans,
    get_ras_to_neuromag_trans (vec3 0 1 0) (vec3 (-1) 0 0) (vec3 1 0 0)
    = Ok trans /\
    length trans = 4%nat /\
    Forall (fun row => length row = 4%nat) trans /\
    apply (map (firstn 3) (firstn 3 trans)) [1; 0; 0] = [1; 0; 0] /\
    map (fun row => nth 3 row 0) (firstn 3 trans) = [0; 0; 0].
Proof.
  exists identity4. split; [exact get_ras_aligned|].
  split; [reflexivity|]. split; [repeat constructor|].
  split; [cbn; list_eq; ring | reflexivity].
Qed.

(** C10: for each of the four supported combinations, every parameter
    vector [x] of its length and every source of shape (n,3), the
    residual function of the branch returns [tgt_pts] minus the first
    three columns of (src_pts | 1) . M^T, where M is the matrix
    [_trans_from_params] makes of [x]: the transform that is returned
    and checked against the tolerance is the one the solver minimized.
    In particular the top-left 3x3 block of rotation . scaling(s,s,s) is
    s times rotation3d. *)
Theorem residual_transform_is_trans_from_params rot n r t s x src_pts
  tgt_pts src' error x0d :
  supported r t s = true ->
  shape src_pts = [n; 3%nat] ->
  length (data src_pts) = (n * 3)%nat ->
  (if t then hstack_ones src_pts else Ok src_pts) = Ok src' ->
  error_of rot (r, t, s) src' tgt_pts = Some (error, x0d) ->
  length x = n_params (r, t, s) ->
  (exists M src4 est,
     _trans_from_params rot (r, t, s) x = Ok M /\
     hstack_ones src_pts = Ok src4 /\
     dot_T src4 M = Ok est /\
     error x = (d <- sub tgt_pts (cols3 est) ;; Ok (data d)))
  /\ (forall rx ry rz sc,
        map (firstn 3)
          (firstn 3 (dot (rotation rot rx ry rz) (scaling sc sc sc)))
        = mscale (rotation3d rot rx ry rz) sc).
Proof.
  intros Hsup Hshape Hdata Hsrc' Herr Hx. split.
  - now apply (residual_uses_trans rot n r t s x src_pts tgt_pts src'
                 error x0d).
  - intros. apply rotation_scaling_topleft.
Qed.

Lemma residual_transform_is_trans_from_params_witness :
  (exists M src4 est,
     _trans_from_params euler (true, false, 1%Z) [0; 0; 0; 1] = Ok M /\
     hstack_ones src1 = Ok src4 /\
     dot_T src4 M = Ok est /\
     (est' <- dot_T src1 (mscale (rotation3d euler 0 0 0) 1) ;;
      d <- sub tgt1 est' ;; Ok (data d))
     = (d <- sub tgt1 (cols3 est) ;; Ok (data d)))
  /\ (forall rx ry rz sc,
        map (firstn 3)
          (firstn 3 (dot (rotation euler rx ry rz) (scaling sc sc sc)))
        = mscale (rotation3d euler rx ry rz) sc).
Proof.
  eapply (residual_transform_is_trans_from_params euler 1 true false 1%Z
            [0; 0; 0; 1] src1 tgt1 src1
            (fun x => match x with
                      | [rx; ry; rz; s] =>
                          est <- dot_T src1 (mscale (rotation3d euler rx ry rz) s) ;;
                          d <- sub tgt1 est ;; Ok (data d)
                      | _ => Raise (ValueError Unpack)
                      end) [0; 0; 0; 1]).
  - reflexivity.
  - reflexivity.
  - reflexivity.
  - reflexivity.
  - reflexivity.
  - reflexivity.
Defined.

End CoregFacts.

(** ** More on the decimation *)

Set Implicit Arguments.

Module DecimateMore.

Import Decimate.
Import DecimateFacts.
Import Lqa.
Open Scope Q_scope.

Section OnGrid.

Variables (sx sy sz res : Q) (Lx Ly Lz : nat).
Hypothesis res_pos : 0 < res.

Let xax := edges sx res Lx.
Let yax := edges sy res Ly.
Let zax := edges sz res Lz.



End OnGrid.






(** X3: an empty point set is refused: the minimum of an empty array
    raises ValueError before any grid is made. *)
Theorem decimate_empty_raises res :
  _decimate_points [] res = Raise (ValueError EmptySequence).
Proof. reflexivity. Qed.

















End DecimateMore.

Unset Implicit Arguments.

(** ** More on the transforms *)

Module TransformMore.

Import Coreg CoregFacts.
Import Lra.
Open Scope R_scope.

(** X5: a parameter vector shorter than the descriptor needs makes
    [_trans_from_params] raise: IndexError when only the single scale
    parameter is missing, ValueError (the unpacking of a slice of fewer
    than three values) otherwise. *)
Theorem trans_from_params_too_short rot r t s params :
  (length params < n_params (r, t, s))%nat ->
  _trans_from_params rot (r, t, s) params
  = Raise (if (s =? 1)%Z && (S (length params) =? n_params (r, t, s))%nat
           then IndexError else ValueError Unpack).
Proof.
  unfold _trans_from_params, n_params.
  destruct r, t; destruct (s =? 1)%Z; try destruct (s =? 3)%Z;
    intros Hn;
    do 9 (try (destruct params as [|? params];
               [try (simpl in Hn; lia); reflexivity|]));
    simpl in Hn; lia.
Qed.

Lemma trans_from_params_too_short_witness :
  _trans_from_params euler (true, false, 1%Z) [0; 0; 0] = Raise IndexError
  /\ _trans_from_params euler (true, true, 0%Z) [0; 0; 0; 1]
     = Raise (ValueError Unpack).
Proof.
  split.
  - apply (trans_from_params_too_short euler true false 1%Z [0; 0; 0]).
    simpl; lia.
  - apply (trans_from_params_too_short euler true true 0%Z [0; 0; 0; 1]).
    simpl; lia.
Defined.

(** X6: [_trans_from_params] ignores the values that follow the ones
    the descriptor consumes. *)
Theorem trans_from_params_ignores_extra rot r t s params extra :
  (n_params (r, t, s) <= length params)%nat ->
  _trans_from_params rot (r, t, s) (params ++ extra)
  = _trans_from_params rot (r, t, s) params.
Proof.
  unfold _trans_from_params, n_params.
  destruct r, t; destruct (s =? 1)%Z; try destruct (s =? 3)%Z;
    intros Hn;
    do 9 (try (destruct params as [|? params];
               [try (simpl in Hn; lia); try reflexivity|]));
    try reflexivity.
Qed.

Lemma trans_from_params_ignores_extra_witness :
  _trans_from_params euler (true, false, 0%Z) ([0; 0; 0] ++ [5; 7])
  = _trans_from_params euler (true, false, 0%Z) [0; 0; 0].
Proof.
  apply (trans_from_params_ignores_extra euler true false 0%Z [0; 0; 0]
           [5; 7]).
  simpl; lia.
Defined.

Lemma euler_identity : rotation euler 0 0 0 = identity4.
Proof.
  unfold rotation, entry, euler, identity4. rewrite cos_0, sin_0.
  list_eq; ring.
Qed.

(** X7: the default initial guess of each branch of
    [fit_matched_points] is the parameter vector of the identity
    transform (for a rotation that is the identity at zero angles). *)
Theorem matched_default_guess_is_identity rot r t s src tgt error x0d :
  rotation rot 0 0 0 = identity4 ->
  error_of rot (r, t, s) src tgt = Some (error, x0d) ->
  _trans_from_params rot (r, t, s) x0d = Ok identity4.
Proof.
  intros Hrot Herr.
  destruct (supported r t s) eqn:Hsup;
    [|now rewrite error_of_unsupported in Herr].
  unfold supported in Hsup.
  destruct r, t, s as [|[p|p|]|p]; try discriminate;
    cbn [error_of] in Herr; injection Herr as _ <-;
    (rewrite trans_from_params_value; [|reflexivity|simpl; lia]);
    unfold translate_matrix, rotate_matrix, scale_matrix;
    cbn [nth Nat.add Z.eqb Pos.eqb]; rewrite Hrot;
    cbn; unfold identity4; list_eq; ring.
Qed.

Lemma matched_default_guess_is_identity_witness :
  _trans_from_params euler (true, true, 1%Z) [0; 0; 0; 0; 0; 0; 1]
  = Ok identity4.
Proof.
  apply (matched_default_guess_is_identity euler true true 1%Z src1 tgt1
           (fun x =>
              match x with
              | [rx; ry; rz; tx; ty; tz; s] =>
                  trans <- reduce dot [translation tx ty tz;
                                       rotation euler rx ry rz;
                                       scaling s s s] ;;
                  est <- dot_T src1 trans ;;
                  d <- sub tgt1 (cols3 est) ;;
                  Ok (data d)
              | _ => Raise (ValueError Unpack)
              end)).
  - exact euler_identity.
  - reflexivity.
Defined.

End TransformMore.

(** ** The head frame of arbitrary landmarks *)

Module HeadFrame.

Import Coreg CoregFacts.
Import Lra.
Open Scope R_scope.

Lemma norm_sqr3 a b c :
  norm [a; b; c] * norm [a; b; c] = a * a + b * b + c * c.
Proof.
  unfold norm. cbn [map fold_right]. rewrite sqrt_sqrt; [ring|]. nra.
Qed.

Lemma norm3_zero a b c : norm [a; b; c] = 0 -> a = 0 /\ b = 0 /\ c = 0.
Proof.
  intros H. pose proof (norm_sqr3 a b c) as Hs. rewrite H in Hs.
  repeat split; nra.
Qed.

Lemma norm_nonneg v : 0 <= norm v.
Proof. unfold norm. apply sqrt_pos. Qed.

(** Unfolds the function on three arrays of length 3 and names the two
    norms and their inverses. *)
Ltac head_frame nr k na m Hnr Hna :=
  unfold get_ras_to_neuromag_trans; cbn -[norm];
  match goal with
  | |- context [norm [?a; ?b; ?c]] =>
      pose proof (norm_sqr3 a b c) as Hnr;
      set (nr := norm [a; b; c]) in *
  end;
  match goal with
  | |- context [norm [?a; ?b; ?c]] =>
      pose proof (norm_sqr3 a b c) as Hna;
      set (na := norm [a; b; c]) in *
  end;
  unfold Rdiv in *;
  set (k := / nr) in *; set (m := / na) in *.

(** For landmarks that are not on one line, neither the vector from LPA
    to RPA nor the vector from the origin to the nasion is zero. *)
Ltac nonzero_norms Hne nr k na m Hnr Hna Hk Hm :=
  unfold collinear in Hne; cbn [vsub combine map fst snd cross] in Hne;
  match goal with
  | |- context [get_ras_to_neuromag_trans _ (vec3 ?l0 ?l1 ?l2)
                  (vec3 ?r0 ?r1 ?r2)] =>
      assert (norm [r0 - l0; r1 - l1; r2 - l2] <> 0) as Hnr0
        by (let H0 := fresh in
            intros H0; apply norm3_zero in H0 as (H0 & H1 & H2);
            apply Hne; rewrite H0, H1, H2; list_eq; ring)
  end;
  head_frame nr k na m Hnr Hna;
  assert (nr * k = 1) as Hk by (now apply Rinv_r);
  assert (na <> 0) as Hna0
    by (let Z0 := fresh in
        intros Z0; subst na; apply norm3_zero in Z0 as (Z0 & Z1 & Z2);
        apply Hne; clearbody nr k; clear - Z0 Z1 Z2 Hk Hnr; list_eq; nsatz);
  assert (na * m = 1) as Hm by (now apply Rinv_r).

(** X8: the head frame of three landmarks that are not on one line:
    the matrix has bottom row [0,0,0,1], LPA and
    RPA are on the x axis, RPA on the side of increasing x at their
    distance from LPA, and the nasion is on the positive y axis. *)
Theorem head_frame_axes n0 n1 n2 l0 l1 l2 r0 r1 r2 :
  ~ collinear [n0; n1; n2] [l0; l1; l2] [r0; r1; r2] ->
  exists trans xl d,
    get_ras_to_neuromag_trans (vec3 n0 n1 n2) (vec3 l0 l1 l2) (vec3 r0 r1 r2)
    = Ok trans
    /\ nth 3 trans [] = [0; 0; 0; 1]
    /\ apply trans [l0; l1; l2; 1] = [xl; 0; 0; 1]
    /\ apply trans [r0; r1; r2; 1]
       = [xl + norm [r0 - l0; r1 - l1; r2 - l2]; 0; 0; 1]
    /\ 0 < d
    /\ apply trans [n0; n1; n2; 1] = [0; d; 0; 1].
Proof.
  intros Hne.
  nonzero_norms Hne nr k na m Hnr Hna Hk Hm.
  assert (0 < na) as Hpos.
  { subst na.
    match goal with |- 0 < norm ?v => pose proof (norm_nonneg v) end. lra. }
  clearbody nr k na m. clear Hne Hnr0 Hna0.
  eexists. eexists. exists na. split; [reflexivity|]. cbn.
  split; [list_eq; ring|].
  split; [list_eq; try reflexivity; nsatz|].
  split; [list_eq; nsatz|].
  split; [assumption|]. list_eq; nsatz.
Qed.

Lemma landmarks_not_collinear : ~ collinear [0; 1; 0] [-1; 0; 0] [1; 0; 0].
Proof.
  unfold collinear. cbn. intros H. injection H as _ _ H. lra.
Qed.

Lemma head_frame_axes_witness :
  exists trans xl d,
    get_ras_to_neuromag_trans (vec3 0 1 0) (vec3 (-1) 0 0) (vec3 1 0 0)
    = Ok trans
    /\ nth 3 trans [] = [0; 0; 0; 1]
    /\ apply trans [-1; 0; 0; 1] = [xl; 0; 0; 1]
    /\ apply trans [1; 0; 0; 1]
       = [xl + norm [1 - -1; 0 - 0; 0 - 0]; 0; 0; 1]
    /\ 0 < d
    /\ apply trans [0; 1; 0; 1] = [0; d; 0; 1].
Proof.
  apply (head_frame_axes 0 1 0 (-1) 0 0 1 0 0).
  exact landmarks_not_collinear.
Defined.

(** X9: for landmarks that are not on one line, the rotation block of
    the head frame is orthonormal and right-handed:
    its rows are the unit vectors of the x, y and z axes, and the third is
    the cross product of the first two. *)
Theorem head_frame_orthonormal n0 n1 n2 l0 l1 l2 r0 r1 r2 :
  ~ collinear [n0; n1; n2] [l0; l1; l2] [r0; r1; r2] ->
  exists trans,
    get_ras_to_neuromag_trans (vec3 n0 n1 n2) (vec3 l0 l1 l2) (vec3 r0 r1 r2)
    = Ok trans
    /\ orthonormal (rot_part trans)
    /\ nth 2 (rot_part trans) []
       = cross (nth 0 (rot_part trans) []) (nth 1 (rot_part trans) []).
Proof.
  intros Hne.
  nonzero_norms Hne nr k na m Hnr Hna Hk Hm.
  clearbody nr k na m. clear Hne Hnr0 Hna0.
  eexists. split; [reflexivity|]. cbn.
  split; [|list_eq; nsatz].
  intros i j Hi Hj.
  destruct i as [|[|[|i]]]; [| | |lia]; destruct j as [|[|[|j]]]; try lia;
    cbn; nsatz.
Qed.

Lemma head_frame_orthonormal_witness :
  exists trans,
    get_ras_to_neuromag_trans (vec3 0 1 0) (vec3 (-1) 0 0) (vec3 1 0 0)
    = Ok trans
    /\ orthonormal (rot_part trans)
    /\ nth 2 (rot_part trans) []
       = cross (nth 0 (rot_part trans) []) (nth 1 (rot_part trans) []).
Proof.
  apply (head_frame_orthonormal 0 1 0 (-1) 0 0 1 0 0).
  exact landmarks_not_collinear.
Defined.

(** X10: for landmarks that are not on one line, the head frame is a
    rigid motion: it keeps the distance of any two points. *)
Theorem head_frame_rigid n0 n1 n2 l0 l1 l2 r0 r1 r2 :
  ~ collinear [n0; n1; n2] [l0; l1; l2] [r0; r1; r2] ->
  exists trans,
    get_ras_to_neuromag_trans (vec3 n0 n1 n2) (vec3 l0 l1 l2) (vec3 r0 r1 r2)
    = Ok trans
    /\ forall p0 p1 p2 q0 q1 q2,
        norm (firstn 3 (vsub (apply trans [p0; p1; p2; 1])
                             (apply trans [q0; q1; q2; 1])))
        = norm [p0 - q0; p1 - q1; p2 - q2].
Proof.
  intros Hne.
  nonzero_norms Hne nr k na m Hnr Hna Hk Hm.
  clearbody nr k na m. clear Hne Hnr0 Hna0.
  eexists. split; [reflexivity|]. intros. cbn -[norm].
  unfold norm. f_equal. cbn [map fold_right].
  match goal with
  | |- context [?x0 * m * 1] =>
    match goal with
    | |- context [?x1 * m * 0 + (?y1 * m * 1 + _)] =>
      match goal with
      | |- context [?x2 * m * 0 + (?y2 * m * 0 + (?z2 * m * 1 + _))] =>
          set (a0 := x0 * m) in *; set (a1 := y1 * m) in *;
          set (a2 := z2 * m) in *
      end
    end
  end.
  set (u0 := (r0 - l0) * k) in *. set (u1 := (r1 - l1) * k) in *.
  set (u2 := (r2 - l2) * k) in *.
  assert (u0 * u0 + u1 * u1 + u2 * u2 = 1) as Huu by (unfold u0, u1, u2; nsatz).
  assert (a0 * a0 + a1 * a1 + a2 * a2 = 1) as Haa
    by (unfold a0, a1, a2, u0, u1, u2 in *; nsatz).
  assert (u0 * a0 + u1 * a1 + u2 * a2 = 0) as Hua
    by (unfold a0, a1, a2, u0, u1, u2 in *; nsatz).
  clearbody a0 a1 a2 u0 u1 u2. clear - Huu Haa Hua.
  set (d0 := p0 - q0). set (d1 := p1 - q1). set (d2 := p2 - q2).
  set (uw := u0 * d0 + u1 * d1 + u2 * d2).
  set (aw := a0 * d0 + a1 * d1 + a2 * d2).
  set (cw := (u1 * a2 - u2 * a1) * d0 + (u2 * a0 - u0 * a2) * d1
             + (u0 * a1 - u1 * a0) * d2).
  assert (cw * cw
          = (u0 * u0 + u1 * u1 + u2 * u2) * (a0 * a0 + a1 * a1 + a2 * a2)
            * (d0 * d0 + d1 * d1 + d2 * d2)
            + 2 * (u0 * a0 + u1 * a1 + u2 * a2) * aw * uw
            - (u0 * u0 + u1 * u1 + u2 * u2) * (aw * aw)
            - (a0 * a0 + a1 * a1 + a2 * a2) * (uw * uw)
            - (d0 * d0 + d1 * d1 + d2 * d2)
              * ((u0 * a0 + u1 * a1 + u2 * a2) * (u0 * a0 + u1 * a1 + u2 * a2)))
    as Hgram by (unfold cw, aw, uw; ring).
  rewrite Huu, Haa, Hua in Hgram.
  transitivity (uw * uw + aw * aw + cw * cw);
    [unfold uw, aw, cw, d0, d1, d2; ring|].
  rewrite Hgram. ring.
Qed.

Lemma head_frame_rigid_witness :
  exists trans,
    get_ras_to_neuromag_trans (vec3 0 1 0) (vec3 (-1) 0 0) (vec3 1 0 0)
    = Ok trans
    /\ forall p0 p1 p2 q0 q1 q2,
        norm (firstn 3 (vsub (apply trans [p0; p1; p2; 1])
                             (apply trans [q0; q1; q2; 1])))
        = norm [p0 - q0; p1 - q1; p2 - q2].
Proof.
  apply (head_frame_rigid 0 1 0 (-1) 0 0 1 0 0).
  exact landmarks_not_collinear.
Defined.

End HeadFrame.

(** ** The distance to the closest point *)

Module PointCloudFacts.

Import Coreg CoregFacts PointCloud.
Import Lra.
Open Scope R_scope.

Lemma fold_left_Rmin_le l : forall d, fold_left Rmin l d <= d.
Proof.
  induction l as [|a l IH]; intros d; simpl; [lra|].
  eapply Rle_trans; [apply IH | apply Rmin_l].
Qed.

Lemma fold_left_Rmin_lower l : forall d x,
  In x l -> fold_left Rmin l d <= x.
Proof.
  induction l as [|a l IH]; intros d x []; simpl.
  - subst a. eapply Rle_trans; [apply fold_left_Rmin_le | apply Rmin_r].
  - now apply IH.
Qed.

Lemma fold_left_Rmin_In l : forall d,
  fold_left Rmin l d = d \/ In (fold_left Rmin l d) l.
Proof.
  induction l as [|a l IH]; intros d; simpl; [now left|].
  destruct (IH (Rmin d a)) as [H|H]; [|now right; right].
  rewrite H. unfold Rmin. destruct (Rle_dec d a); [now left | right; now left].
Qed.

Lemma rmin_lower row x : In x row -> rmin row <= x.
Proof.
  destruct row as [|d row]; intros []; simpl.
  - subst x. apply fold_left_Rmin_le.
  - now apply fold_left_Rmin_lower.
Qed.

Lemma rmin_In row : row <> [] -> In (rmin row) row.
Proof.
  destruct row as [|d row]; [congruence|]. intros _. simpl.
  destruct (fold_left_Rmin_In row d) as [->|H]; [now left | now right].
Qed.

Lemma euclidean_nonneg p q : 0 <= euclidean p q.
Proof. unfold euclidean. apply sqrt_pos. Qed.

Lemma euclidean_refl p : euclidean p p = 0.
Proof.
  unfold euclidean.
  assert (fold_right Rplus 0
            (map (fun ab => (fst ab - snd ab) ^ 2) (combine p p)) = 0) as ->.
  { induction p as [|a p IH]; cbn [combine map fold_right fst snd];
      [reflexivity|]. rewrite IH. ring. }
  apply sqrt_0.
Qed.

Lemma Forall2_map_r (A B : Type) (P : A -> B -> Prop) (g : A -> B) l :
  (forall a, In a l -> P a (g a)) -> Forall2 P l (map g l).
Proof.
  induction l as [|a l IH]; intros H; simpl; constructor.
  - apply H; now left.
  - apply IH. intros b Hb. apply H; now right.
Qed.

(** What [_point_cloud_error] computes. *)
Lemma point_cloud_error_value src_pts tgt_pts n m k :
  shape src_pts = [n; k] -> shape tgt_pts = [m; k] -> (0 < m)%nat ->
  _point_cloud_error src_pts tgt_pts
  = Ok (map (fun p => rmin (map (euclidean p) (rows m k (data tgt_pts))))
            (rows n k (data src_pts))).
Proof.
  intros Hs Ht Hm. unfold _point_cloud_error, cdist. rewrite Hs, Ht.
  rewrite Nat.eqb_refl. cbn [bind]. unfold min_axis1. cbn [shape data].
  destruct (Nat.eqb_spec m 0); [lia|]. f_equal.
  set (L := map _ (rows n k (data src_pts))).
  assert (length L = n) as HL by (unfold L; now rewrite length_map, rows_length).
  assert (Forall (fun r => length r = m) L) as HLm.
  { unfold L. apply Forall_map. apply Forall_forall. intros r _.
    now rewrite length_map, rows_length. }
  assert (rows n m (concat L) = L) as ->
    by (rewrite <- HL at 1; now apply rows_concat).
  unfold L. now rewrite map_map.
Qed.

(** X11: for a source of shape (n,k) and a non-empty target of shape
    (m,k), [_point_cloud_error] returns one value for each source point:
    the Euclidean distance to a target point, no larger than the distance
    to any target point. *)
Theorem point_cloud_error_nearest src_pts tgt_pts n m k :
  shape src_pts = [n; k] -> shape tgt_pts = [m; k] -> (0 < m)%nat ->
  exists dist,
    _point_cloud_error src_pts tgt_pts = Ok dist /\
    Forall2 (fun p d =>
               0 <= d
               /\ (exists q, In q (rows m k (data tgt_pts))
                             /\ d = euclidean p q)
               /\ (forall q, In q (rows m k (data tgt_pts))
                             -> d <= euclidean p q))
            (rows n k (data src_pts)) dist.
Proof.
  intros Hs Ht Hm. eexists. split.
  - now apply (point_cloud_error_value src_pts tgt_pts n m k).
  - apply Forall2_map_r. intros p _.
    set (T := rows m k (data tgt_pts)).
    assert (map (euclidean p) T <> []) as Hne.
    { intros H. apply (f_equal (@length R)) in H.
      unfold T in H. rewrite length_map, rows_length in H. simpl in H. lia. }
    pose proof (rmin_In _ Hne) as Hin.
    apply in_map_iff in Hin as (q & Hq & HqT).
    split; [rewrite <- Hq; apply euclidean_nonneg|]. split.
    + exists q. split; [assumption | now symmetry].
    + intros q' Hq'. apply rmin_lower. now apply in_map.
Qed.

Lemma point_cloud_error_nearest_witness :
  exists dist,
    _point_cloud_error src1 tgt1 = Ok dist /\
    Forall2 (fun p d =>
               0 <= d
               /\ (exists q, In q (rows 1 3 (data tgt1))
                             /\ d = euclidean p q)
               /\ (forall q, In q (rows 1 3 (data tgt1))
                             -> d <= euclidean p q))
            (rows 1 3 (data src1)) dist.
Proof.
  apply (point_cloud_error_nearest src1 tgt1 1 1 3).
  - reflexivity.
  - reflexivity.
  - lia.
Defined.

(** X12: every point of a non-empty cloud is at distance 0 from the
    cloud itself. *)
Theorem point_cloud_error_self a n k :
  shape a = [n; k] -> (0 < n)%nat ->
  _point_cloud_error a a = Ok (map (fun _ => 0) (rows n k (data a))).
Proof.
  intros Ha Hn. rewrite (point_cloud_error_value a a n n k Ha Ha Hn).
  f_equal. apply map_ext_in. intros p Hp.
  set (T := rows n k (data a)) in *.
  assert (rmin (map (euclidean p) T) <= 0) as Hle.
  { rewrite <- (euclidean_refl p). apply rmin_lower. now apply in_map. }
  assert (map (euclidean p) T <> []) as Hne
    by (destruct T; [destruct Hp | discriminate]).
  pose proof (rmin_In _ Hne) as Hin.
  apply in_map_iff in Hin as (q & Hq & _).
  pose proof (euclidean_nonneg p q). lra.
Qed.

Lemma point_cloud_error_self_witness :
  _point_cloud_error src1 src1 = Ok (map (fun _ => 0) (rows 1 3 (data src1))).
Proof.
  apply (point_cloud_error_self src1 1 3).
  - reflexivity.
  - lia.
Defined.

(** X13: [_point_cloud_error] raises ValueError when the two arrays
    have different numbers of columns, and when the target is empty. *)
Theorem point_cloud_error_raises src_pts tgt_pts n m k k' :
  shape src_pts = [n; k] -> shape tgt_pts = [m; k'] ->
  (k <> k' -> _point_cloud_error src_pts tgt_pts
              = Raise (ValueError ShapesNotAligned))
  /\ (k = k' -> m = 0%nat ->
      _point_cloud_error src_pts tgt_pts = Raise (ValueError EmptySequence)).
Proof.
  intros Hs Ht. unfold _point_cloud_error, cdist. rewrite Hs, Ht. split.
  - intros Hk. destruct (Nat.eqb_spec k k'); [contradiction | reflexivity].
  - intros -> ->. rewrite Nat.eqb_refl. reflexivity.
Qed.

Lemma point_cloud_error_raises_witness :
  _point_cloud_error src1 (mk_ndarray [1%nat; 2%nat] [0; 0])
  = Raise (ValueError ShapesNotAligned)
  /\ _point_cloud_error src1 (mk_ndarray [0%nat; 3%nat] [])
     = Raise (ValueError EmptySequence).
Proof.
  split.
  - destruct (point_cloud_error_raises src1
                (mk_ndarray [1%nat; 2%nat] [0; 0]) 1 1 3 2 eq_refl eq_refl)
      as [H _].
    apply H. discriminate.
  - destruct (point_cloud_error_raises src1
                (mk_ndarray [0%nat; 3%nat] []) 1 0 3 3 eq_refl eq_refl)
      as [_ H].
    apply H; reflexivity.
Defined.

End PointCloudFacts.

(** ** The closest-point fit and the validation of the combination *)

Module PointCloudFit.

Import Coreg CoregFacts PointCloud.
Import Lra.
Open Scope R_scope.

Section Fit.

Variable rot : R -> R -> R -> nat -> nat -> R.
Variable value : Type.
Variable of_float : R -> value.
Variable leastsq :
  list (String.string * value) ->
  (list R -> result (exn R) (list R)) -> list R -> result (exn R) (list R).
Variable BallTree :
  option (ndarray -> result (exn R) (ndarray -> result (exn R) (list R))).

Lemma cloud_error_of_unsupported r t s src errfunc :
  PointCloud.supported r t s = false ->
  PointCloud.error_of rot (r, t, s) src errfunc = None.
Proof.
  unfold PointCloud.supported, PointCloud.error_of.
  destruct r, t, s as [|[[p|p|]|p|]|p]; (discriminate || reflexivity).
Qed.

Lemma cloud_error_of_supported r t s src errfunc :
  PointCloud.supported r t s = true ->
  PointCloud.error_of rot (r, t, s) src errfunc <> None.
Proof.
  unfold PointCloud.supported, PointCloud.error_of.
  destruct r, t, s as [|[[p|p|]|p|]|p]; discriminate.
Qed.

Lemma fit_cloud_unsupported_no_result src tgt r t s x0 args out v :
  PointCloud.supported r t s = false ->
  fit_point_cloud rot of_float leastsq BallTree src tgt r t s x0 args out
  <> Ok v.
Proof.
  intros Hs. unfold fit_point_cloud.
  destruct (if t then _ else _) as [src'|]; cbn [bind]; [|discriminate].
  destruct BallTree as [tree|]; cbn [bind].
  - destruct (tree _); cbn [bind]; [|discriminate].
    now rewrite cloud_error_of_unsupported.
  - now rewrite cloud_error_of_unsupported.
Qed.

Lemma fit_cloud_unsupported src tgt r t s x0 args out :
  PointCloud.supported r t s = false ->
  (ndim src <= 2)%nat ->
  (forall tree, BallTree = Some tree ->
                exists tgt_tree, tree (atleast_2d tgt) = Ok tgt_tree) ->
  fit_point_cloud rot of_float leastsq BallTree src tgt r t s x0 args out
  = Raise (NotImplementedError r t s).
Proof.
  intros Hs Hdim Htree. unfold fit_point_cloud.
  apply atleast_2d_ndim in Hdim.
  destruct (hstack_ones_2d _ Hdim) as (b & Hb).
  assert ((if t then hstack_ones (atleast_2d src) else Ok (atleast_2d src))
          = Ok (if t then b else atleast_2d src)) as ->
    by (destruct t; [exact Hb | reflexivity]).
  cbn [bind]. destruct BallTree as [tree|].
  - destruct (Htree tree eq_refl) as (q & ->). cbn [bind].
    now rewrite cloud_error_of_unsupported.
  - cbn [bind]. now rewrite cloud_error_of_unsupported.
Qed.

End Fit.

(** X14: [fit_point_cloud] has a residual function for exactly the
    four combinations (True,False,0), (True,False,1), (True,False,3) and
    (True,True,0); for every other combination it returns no result, and
    for a source of at most two dimensions (and a target the tree can be
    built of, if sklearn is there) it raises NotImplementedError carrying
    (rotate, translate, scale). *)
Theorem fit_point_cloud_combinations rot (value : Type)
  (of_float : R -> value) leastsq BallTree src tgt r t s x0 args out :
  (forall src' errfunc,
     PointCloud.error_of rot (r, t, s) src' errfunc <> None
     <-> PointCloud.supported r t s = true)
  /\ (PointCloud.supported r t s = false ->
      (forall v,
         fit_point_cloud rot of_float leastsq BallTree src tgt r t s
           x0 args out <> Ok v)
      /\ ((ndim src <= 2)%nat ->
          (forall tree, BallTree = Some tree ->
                        exists tgt_tree, tree (atleast_2d tgt) = Ok tgt_tree) ->
          fit_point_cloud rot of_float leastsq BallTree src tgt r t s
            x0 args out
          = Raise (NotImplementedError r t s))).
Proof.
  split.
  - intros src' errfunc. destruct (PointCloud.supported r t s) eqn:Hs.
    + split; [reflexivity|]. intros _. now apply cloud_error_of_supported.
    + rewrite cloud_error_of_unsupported by assumption. split; congruence.
  - intros Hs. split.
    + intros v. now apply fit_cloud_unsupported_no_result.
    + intros Hdim Htree. now apply fit_cloud_unsupported.
Qed.

Lemma fit_point_cloud_combinations_witness :
  fit_point_cloud euler (fun x : R => x) (fun _ => leastsq_at_x0) None
    src1 tgt1 true true 1%Z None [] str_trans
  = Raise (NotImplementedError true true 1%Z).
Proof.
  destruct (fit_point_cloud_combinations euler R (fun x : R => x)
              (fun _ => leastsq_at_x0) None src1 tgt1 true true 1%Z None []
              str_trans) as [_ H].
  destruct (H eq_refl) as [_ H']. apply H'.
  - unfold ndim, src1; simpl; lia.
  - discriminate.
Defined.

(** X15: the two fitters do not implement the same combinations:
    rotation with translation and one scale parameter is fitted by
    [fit_matched_points] only, rotation with three scale parameters by
    [fit_point_cloud] only; on every other combination either both have
    a residual function or none has. *)
Theorem fitters_differ rot src tgt src' errfunc :
  Coreg.error_of rot (true, true, 1%Z) src tgt <> None
  /\ PointCloud.error_of rot (true, true, 1%Z) src' errfunc = None
  /\ Coreg.error_of rot (true, false, 3%Z) src tgt = None
  /\ PointCloud.error_of rot (true, false, 3%Z) src' errfunc <> None
  /\ forall r t s,
       (r, t, s) <> (true, true, 1%Z) -> (r, t, s) <> (true, false, 3%Z) ->
       (Coreg.error_of rot (r, t, s) src tgt = None
        <-> PointCloud.error_of rot (r, t, s) src' errfunc = None).
Proof.
  split; [discriminate|]. split; [reflexivity|]. split; [reflexivity|].
  split; [discriminate|]. intros r t s H1 H3.
  destruct r, t, s as [|[[p|p|]|p|]|p]; cbn;
    try (split; (reflexivity || discriminate));
    try tauto; try congruence.
Qed.

Lemma fitters_differ_witness :
  (Coreg.error_of euler (false, true, 0%Z) src1 tgt1 = None
   <-> PointCloud.error_of euler (false, true, 0%Z) src1
         (fun _ : ndarray => Ok []) = None).
Proof.
  destruct (fitters_differ euler src1 tgt1 src1 (fun _ : ndarray => Ok []))
    as (_ & _ & _ & _ & H).
  apply H; discriminate.
Defined.

(** X16: an [out] other than 'params' and 'trans' never gives a
    result, in either fitter. *)
Theorem invalid_out_no_result rot (value : Type) (of_float : R -> value)
  leastsq leastsq_kw BallTree src tgt r t s tol x0 args out :
  String.eqb out str_params = false ->
  String.eqb out str_trans = false ->
  (forall v,
     fit_matched_points rot leastsq src tgt r t s tol x0 out <> Ok v)
  /\ (forall v,
        fit_point_cloud rot of_float leastsq_kw BallTree src tgt r t s x0
          args out <> Ok v).
Proof.
  intros Hp Ht. split; intros v.
  - unfold fit_matched_points. rewrite Hp, Ht.
    destruct (negb _); [discriminate|].
    destruct (if t then _ else _); cbn [bind]; [|discriminate].
    destruct (Coreg.error_of _ _ _ _) as [[error x0d]|]; [|discriminate].
    destruct (leastsq _ _); cbn [bind]; [|discriminate].
    destruct (_ || _); [destruct (_trans_from_params _ _ _)|];
      cbn [bind]; try discriminate.
    + destruct tol; [|discriminate].
      destruct (if negb t then _ else _); cbn [bind]; [|discriminate].
      destruct (dot_T _ _); cbn [bind]; [|discriminate].
      destruct (sub _ _); cbn [bind]; [|discriminate].
      destruct (any_gt _ _); discriminate.
    + destruct tol; discriminate.
  - unfold fit_point_cloud. rewrite Hp, Ht.
    destruct (if t then _ else _); cbn [bind]; [|discriminate].
    destruct BallTree as [tree|]; cbn [bind].
    + destruct (tree _); cbn [bind]; [|discriminate].
      destruct (PointCloud.error_of _ _ _ _) as [[error x0d]|];
        [|discriminate].
      destruct (leastsq_kw _ _ _); cbn [bind]; discriminate.
    + destruct (PointCloud.error_of _ _ _ _) as [[error x0d]|];
        [|discriminate].
      destruct (leastsq_kw _ _ _); cbn [bind]; discriminate.
Qed.

Lemma invalid_out_no_result_witness :
  (forall v,
     fit_matched_points euler leastsq_at_x0 src1 tgt1 true false 0%Z None
       None "matrix"%string <> Ok v)
  /\ (forall v,
        fit_point_cloud euler (fun x : R => x) (fun _ => leastsq_at_x0) None
          src1 tgt1 true false 0%Z None [] "matrix"%string <> Ok v).
Proof.
  apply (invalid_out_no_result euler R (fun x : R => x) leastsq_at_x0
           (fun _ => leastsq_at_x0) None src1 tgt1 true false 0%Z None None
           [] "matrix"%string); reflexivity.
Defined.

(** X17: the default initial guess of each branch of [fit_point_cloud]
    is the parameter vector of the identity transform (for a rotation
    that is the identity at zero angles). *)
Theorem cloud_default_guess_is_identity rot r t s src errfunc error x0d :
  rotation rot 0 0 0 = identity4 ->
  PointCloud.error_of rot (r, t, s) src errfunc = Some (error, x0d) ->
  _trans_from_params rot (r, t, s) x0d = Ok identity4.
Proof.
  intros Hrot Herr.
  destruct (PointCloud.supported r t s) eqn:Hsup;
    [|now rewrite cloud_error_of_unsupported in Herr].
  unfold PointCloud.supported in Hsup.
  destruct r, t, s as [|[[p|p|]|p|]|p]; try discriminate;
    cbn [PointCloud.error_of] in Herr; injection Herr as _ <-;
    (rewrite trans_from_params_value; [|reflexivity|simpl; lia]);
    unfold translate_matrix, rotate_matrix, scale_matrix;
    cbn [nth Nat.add Z.eqb Pos.eqb]; rewrite Hrot;
    cbn; unfold identity4; list_eq; ring.
Qed.

Lemma cloud_default_guess_is_identity_witness :
  _trans_from_params euler (true, false, 3%Z) [0; 0; 0; 1; 1; 1]
  = Ok identity4.
Proof.
  apply (cloud_default_guess_is_identity euler true false 3%Z src1
           (fun _ : ndarray => Ok [])
           (fun x =>
              match x with
              | [rx; ry; rz; sx; sy; sz] =>
                  let trans :=
                    mscale_cols (rotation3d euler rx ry rz) [sx; sy; sz] in
                  est <- dot_T src1 trans ;;
                  (fun _ : ndarray => Ok []) est
              | _ => Raise (ValueError Unpack)
              end)).
  - exact TransformMore.euler_identity.
  - reflexivity.
Defined.

Lemma rotation_scaling3_block rot rx ry rz sx sy sz p :
  length p = 3%nat ->
  firstn 3 (map (dotp (p ++ [1]))
              (dot (rotation rot rx ry rz) (scaling sx sy sz)))
  = map (dotp p) (mscale_cols (rotation3d rot rx ry rz) [sx; sy; sz]).
Proof.
  intros Hp. destruct p as [|a [|b [|c [|? ?]]]]; try discriminate.
  cbn. list_eq; ring.
Qed.

(** X18: for each of the four combinations of [fit_point_cloud], every
    parameter vector [x] of its length and every source of shape (n,3),
    the residual function of the branch measures, against the target
    cloud, the first three columns of (src_pts | 1) . M^T, where M is the
    matrix [_trans_from_params] makes of [x]; with three scale
    parameters each column of the rotation is scaled by its own
    factor. *)
Theorem point_cloud_residual_uses_trans rot n r t s x src_pts src' errfunc
  error x0d :
  PointCloud.supported r t s = true ->
  shape src_pts = [n; 3%nat] ->
  length (data src_pts) = (n * 3)%nat ->
  (if t then hstack_ones src_pts else Ok src_pts) = Ok src' ->
  PointCloud.error_of rot (r, t, s) src' errfunc = Some (error, x0d) ->
  length x = n_params (r, t, s) ->
  exists M src4 est,
    _trans_from_params rot (r, t, s) x = Ok M /\
    hstack_ones src_pts = Ok src4 /\
    dot_T src4 M = Ok est /\
    error x = errfunc (cols3 est).
Proof.
  intros Hsup Hshape Hdata Hsrc' Herr Hx.
  destruct src_pts as [sh sd]. cbn [shape data] in *. subst sh.
  unfold PointCloud.supported in Hsup.
  destruct r, t, s as [|[[p|p|]|p|]|p]; try discriminate; cbn in Hx;
    repeat (destruct x as [|? x]; try discriminate);
    cbn [PointCloud.error_of] in Herr; injection Herr as <- <-.
  - unfold hstack_ones in Hsrc'. cbn [shape data] in Hsrc'.
    injection Hsrc' as <-.
    eexists; eexists; eexists.
    split; [reflexivity|]. split; [reflexivity|]. split; [reflexivity|].
    reflexivity.
  - injection Hsrc' as <-.
    destruct (@cols3_dot_hstack (rotation rot r r0 r1)
                (rotation3d rot r r0 r1) n sd) as (src4 & est & H1 & H2 & H3);
      try reflexivity; try assumption.
    { intros p Hp. now apply rotation_block. }
    exists (rotation rot r r0 r1), src4, est.
    repeat split; try assumption. cbv beta iota. now rewrite H3.
  - injection Hsrc' as <-.
    destruct (@cols3_dot_hstack
                (dot (rotation rot r r0 r1) (scaling r2 r3 r4))
                (mscale_cols (rotation3d rot r r0 r1) [r2; r3; r4]) n sd)
      as (src4 & est & H1 & H2 & H3);
      try reflexivity; try assumption.
    { intros p Hp. now apply rotation_scaling3_block. }
    exists (dot (rotation rot r r0 r1) (scaling r2 r3 r4)), src4, est.
    repeat split; try assumption. cbv beta iota.
    unfold mscale_cols, rotation3d in H3. cbn [map combine fst snd] in H3.
    now rewrite H3.
  - injection Hsrc' as <-.
    destruct (@cols3_dot_hstack
                (dot (rotation rot r r0 r1) (scaling r2 r2 r2))
                (mscale (rotation3d rot r r0 r1) r2) n sd)
      as (src4 & est & H1 & H2 & H3);
      try reflexivity; try assumption.
    { intros p Hp. now apply rotation_scaling_block. }
    exists (dot (rotation rot r r0 r1) (scaling r2 r2 r2)), src4, est.
    repeat split; try assumption. cbv beta iota.
    unfold mscale, rotation3d in H3. cbn [map] in H3. now rewrite H3.
Qed.


Lemma point_cloud_residual_uses_trans_witness :
  exists M src4 est,
    _trans_from_params euler (true, false, 3%Z) [0; 0; 0; 1; 2; 3] = Ok M /\
    hstack_ones src1 = Ok src4 /\
    dot_T src4 M = Ok est /\
    (est' <- dot_T src1
               (mscale_cols (rotation3d euler 0 0 0) [1; 2; 3]) ;;
     _point_cloud_error est' tgt1)
    = _point_cloud_error (cols3 est) tgt1.
Proof.
  eapply (point_cloud_residual_uses_trans euler 1 true false 3%Z
            [0; 0; 0; 1; 2; 3] src1 src1
            (fun est => _point_cloud_error est tgt1)
            (fun x =>
               match x with
               | [rx; ry; rz; sx; sy; sz] =>
                   let trans :=
                     mscale_cols (rotation3d euler rx ry rz) [sx; sy; sz] in
                   est <- dot_T src1 trans ;;
                   (fun est => _point_cloud_error est tgt1) est
               | _ => Raise (ValueError Unpack)
               end) [0; 0; 0; 1; 1; 1]).
  - reflexivity.
  - reflexivity.
  - reflexivity.
  - reflexivity.
  - reflexivity.
  - reflexivity.
Defined.

(** C9, amended: [_trans_from_params] does not validate its descriptor.
    It never raises the not-implemented error, whatever the descriptor
    and the parameters are; a [do_scale] other than 1 and 3 is treated
    as no scaling, and a descriptor without any component raises the
    TypeError of [reduce] on an empty list.  The error that names the
    combination is raised by the two fitters: [fit_matched_points] and
    [fit_point_cloud] raise NotImplementedError carrying
    (rotate, translate, scale) for every combination they have no
    residual function for, whatever the solver is, hence before the
    solver is run and its estimate converted. *)
Theorem trans_from_params_no_validation rot (value : Type)
  (of_float : R -> value) leastsq leastsq_kw BallTree r t s params
  src tgt tol x0 args out :
  (forall r' t' s',
     _trans_from_params rot (r, t, s) params
     <> Raise (NotImplementedError r' t' s'))
  /\ (s <> 1%Z -> s <> 3%Z ->
      _trans_from_params rot (r, t, s) params
      = _trans_from_params rot (r, t, 0%Z) params
      /\ _trans_from_params rot (false, false, s) params = Raise TypeError)
  /\ (Coreg.supported r t s = false ->
      shape (atleast_2d src) = shape (atleast_2d tgt) ->
      (ndim src <= 2)%nat ->
      fit_matched_points rot leastsq src tgt r t s tol x0 out
      = Raise (NotImplementedError r t s))
  /\ (PointCloud.supported r t s = false ->
      (ndim src <= 2)%nat ->
      (forall tree, BallTree = Some tree ->
                    exists tgt_tree, tree (atleast_2d tgt) = Ok tgt_tree) ->
      fit_point_cloud rot of_float leastsq_kw BallTree src tgt r t s x0
        args out
      = Raise (NotImplementedError r t s)).
Proof.
  split; [|split; [|split]].
  - intros r' t' s'. apply trans_from_params_not_implemented.
  - intros H1 H3. split.
    + now apply trans_from_params_no_scale.
    + now apply trans_from_params_empty.
  - intros Hs Hshape Hdim. now apply fit_unsupported.
  - intros Hs Hdim Htree. now apply fit_cloud_unsupported.
Qed.

Lemma trans_from_params_no_validation_witness :
  (forall r' t' s',
     _trans_from_params euler (true, false, 2%Z) [0; 0; 0]
     <> Raise (NotImplementedError r' t' s'))
  /\ _trans_from_params euler (true, false, 2%Z) [0; 0; 0]
     = _trans_from_params euler (true, false, 0%Z) [0; 0; 0]
  /\ _trans_from_params euler (false, false, 2%Z) [0; 0; 0] = Raise TypeError
  /\ fit_matched_points euler leastsq_at_x0 src1 tgt1 true false 2%Z
       None None str_trans
     = Raise (NotImplementedError true false 2%Z)
  /\ fit_point_cloud euler (fun x : R => x) (fun _ => leastsq_at_x0) None
       src1 tgt1 true false 2%Z None [] str_trans
     = Raise (NotImplementedError true false 2%Z).
Proof.
  destruct (trans_from_params_no_validation euler R (fun x : R => x)
              leastsq_at_x0 (fun _ => leastsq_at_x0) None
              true false 2%Z [0; 0; 0] src1 tgt1 None None [] str_trans)
    as (H1 & H2 & H3 & H4).
  split; [exact H1|].
  destruct H2 as [H2 H2']; [discriminate | discriminate |].
  split; [exact H2|]. split; [exact H2'|].
  split.
  - apply H3; [reflexivity | reflexivity | unfold ndim, src1; simpl; lia].
  - apply H4; [reflexivity | unfold ndim, src1; simpl; lia | discriminate].
Defined.

End PointCloudFit.
